(** * movement_analyzer/app.py: directory provisioning and the index route

    The program is a Flask bootstrap: it builds the application object,
    stores two configuration entries, creates four directories with
    [os.makedirs(..., exist_ok=True)], registers one view on [/] that
    returns [send_from_directory(TEMPLATES_FOLDER, 'index.html')], and
    calls [app.run(debug=True)] when executed as a script.

    The development has these parts:
    - [Os]: the file system and the [os] / [os.path] calls the program
      and the framework make, in a monad that threads the file system,
      raises Python exceptions and records every system call;
    - [Posix] and [Mimetypes]: the string and path functions those
      calls rest on, and the type table of the standard library;
    - [Werkzeug] and [Routing]: requests, responses, conditional and
      range handling, file sending, URL matching;
    - [Flask]: the application object, request dispatch and the
      conversion of HTTP exceptions into responses;
    - [App]: the statements of app.py, in source order;
    - [Spec], [Sample], [Proofs]: the vocabulary of the statements,
      concrete inputs, and the statements with their proofs;
    - [More]: further properties of provisioning, the server loop, the
      index route and the static route. *)

From stdpp Require Import gmap strings list.
From Stdlib Require Import ZArith Lia Ascii.

Local Open Scope string_scope.
Local Open Scope list_scope.
Local Open Scope Z_scope.

(** ** The [os] layer *)

Module Os.

(** Absolute paths are lists of components: [/srv/app/templates] is
    ["srv"; "app"; "templates"]. *)
Abbreviation path := (list string).

(** The map holds the entries that the process can reach. A directory
    records whether the process may create entries in it; a regular
    file has its bytes and its modification time in seconds. [File] is a
    regular file that the process may read, [Unreadable] one whose mode
    denies it read access: [stat] answers for both, [open] for the
    first only. *)
Inductive node :=
| Dir (writable : bool)
| File (content : list Byte.byte) (mtime : Z)
| Unreadable (content : list Byte.byte) (mtime : Z).

Abbreviation filesystem := (gmap (list string) node).

(** The exceptions the program can meet: the [OSError] subclasses raised
    by [mkdir], [stat] and [open], three builtin errors of the framework
    code, and werkzeug's HTTP exceptions. *)
Inductive exception :=
| FileExistsError
| FileNotFoundError
| NotADirectoryError
| IsADirectoryError
| PermissionError
| KeyError
| TypeError
| RuntimeError
| NotFound
| MethodNotAllowed (valid_methods : list string)
| RequestedRangeNotSatisfiable (length : Z)
| RequestRedirect (new_url : string).

(** What the process does to the outside world, in order. *)
Inductive event :=
| SysMkdir (p : path)
| SysStat (p : path)
| SysOpen (p : path)
| Listen
| Respond (status : Z).

Definition is_read (e : event) : bool :=
  match e with
  | SysStat _ | SysOpen _ => true
  | _ => false
  end.

Definition is_write (e : event) : bool :=
  match e with
  | SysMkdir _ => true
  | _ => false
  end.

(** Computations: from a file system to the events performed, the file
    system left behind, and a value or a raised exception. *)
Definition io (A : Type) : Type :=
  filesystem -> list event * filesystem * (exception + A).

Definition ret {A} (a : A) : io A := fun fs => ([], fs, inr a).

Definition raise {A} (e : exception) : io A := fun fs => ([], fs, inl e).

Definition bind {A B} (m : io A) (k : A -> io B) : io B :=
  fun fs =>
    match m fs with
    | (t1, fs1, inl e) => (t1, fs1, inl e)
    | (t1, fs1, inr a) =>
        match k a fs1 with
        | (t2, fs2, r) => (t1 ++ t2, fs2, r)
        end
    end.

#[global] Instance io_ret : MRet io := @ret.

#[global] Instance io_bind : MBind io := fun A B k m => bind m k.

(** [try: m except Exception as e: h e] *)
Definition try_except {A} (m : io A) (h : exception -> io A) : io A :=
  fun fs =>
    match m fs with
    | (t1, fs1, inl e) =>
        match h e fs1 with
        | (t2, fs2, r) => (t1 ++ t2, fs2, r)
        end
    | (t1, fs1, inr a) => (t1, fs1, inr a)
    end.

Definition emit (e : event) : io unit := fun fs => ([e], fs, inr tt).

Definition lift {A} (r : exception + A) : io A := fun fs => ([], fs, r).

Definition trace_of {R} (x : list event * filesystem * R) : list event := x.1.1.

Definition fs_of {R} (x : list event * filesystem * R) : filesystem := x.1.2.

Definition result_of {R} (x : list event * filesystem * R) : R := x.2.

Definition dirname (p : path) : path := removelast p.

(** [os.mkdir(p)]: the entry must be new and its parent a directory the
    process may write to. *)
Definition mkdir (p : path) : io unit :=
  fun fs =>
    match fs !! p with
    | Some _ => ([SysMkdir p], fs, inl FileExistsError)
    | None =>
        match fs !! dirname p with
        | None => ([SysMkdir p], fs, inl FileNotFoundError)
        | Some (File _ _) | Some (Unreadable _ _) =>
            ([SysMkdir p], fs, inl NotADirectoryError)
        | Some (Dir false) => ([SysMkdir p], fs, inl PermissionError)
        | Some (Dir true) => ([SysMkdir p], <[p := Dir true]> fs, inr tt)
        end
    end.

Definition is_dir (fs : filesystem) (p : path) : bool :=
  match fs !! p with
  | Some (Dir _) => true
  | _ => false
  end.

Definition is_file (fs : filesystem) (p : path) : bool :=
  match fs !! p with
  | Some (File _ _) | Some (Unreadable _ _) => true
  | _ => false
  end.

(** [os.path.isdir] and [os.path.isfile] stat the path and answer
    [False] when the stat fails. *)
Definition path_isdir (p : path) : io bool :=
  fun fs => ([SysStat p], fs, inr (is_dir fs p)).

Definition path_isfile (p : path) : io bool :=
  fun fs => ([SysStat p], fs, inr (is_file fs p)).

(** [os.stat(p)], reduced to the fields [send_file] reads: [st_size]
    and [st_mtime]. A directory reports one block and no time; nothing
    below stats a directory through this call. *)
Definition stat (p : path) : io (Z * Z) :=
  fun fs =>
    match fs !! p with
    | None => ([SysStat p], fs, inl FileNotFoundError)
    | Some (Dir _) => ([SysStat p], fs, inr (4096, 0))
    | Some (File c m) | Some (Unreadable c m) =>
        ([SysStat p], fs, inr (Z.of_nat (length c), m))
    end.

(** [open(p, "rb")], giving the bytes a later read returns. *)
Definition open_rb (p : path) : io (list Byte.byte) :=
  fun fs =>
    match fs !! p with
    | None => ([SysOpen p], fs, inl FileNotFoundError)
    | Some (Dir _) => ([SysOpen p], fs, inl IsADirectoryError)
    | Some (File c _) => ([SysOpen p], fs, inr c)
    | Some (Unreadable _ _) => ([SysOpen p], fs, inl PermissionError)
    end.

(** [os.makedirs(name, exist_ok=exist_ok)] for a relative [name] without
    separator, resolved against the working directory [cwd]. For such a
    name [path.split] yields an empty head, so the library skips the
    recursive creation of parents and runs

      try: mkdir(name, mode)
      except OSError:
          if not exist_ok or not path.isdir(name): raise *)
Definition makedirs (cwd : path) (name : string) (exist_ok : bool) : io unit :=
  try_except (mkdir (cwd ++ [name]))
    (fun e =>
       isd ← path_isdir (cwd ++ [name]);
       if negb exist_ok || negb isd then raise e else ret tt).

End Os.

(** ** String and path helpers ([str], [posixpath]) *)

Module Posix.

Definition is_slash (a : ascii) : bool := Ascii.eqb a "/".

(** [s.lstrip("/")] *)
Fixpoint lstrip_slash (s : string) : string :=
  match s with
  | String a s' => if is_slash a then lstrip_slash s' else s
  | EmptyString => EmptyString
  end.

(** [s.startswith(p)], returning what follows the prefix. *)
Fixpoint strip_prefix (p s : string) : option string :=
  match p, s with
  | EmptyString, _ => Some s
  | String a p', String b s' => if Ascii.eqb a b then strip_prefix p' s' else None
  | String _ _, EmptyString => None
  end.

Definition startswith (s p : string) : bool :=
  match strip_prefix p s with
  | Some _ => true
  | None => false
  end.

(** [s.split("/")] *)
Fixpoint split (s : string) : list string :=
  match s with
  | EmptyString => [EmptyString]
  | String a s' =>
      if is_slash a then EmptyString :: split s'
      else match split s' with
           | c :: cs => String a c :: cs
           | [] => [String a EmptyString]
           end
  end.

(** ["/".join(comps)] *)
Fixpoint join (comps : list string) : string :=
  match comps with
  | [] => EmptyString
  | [c] => c
  | c :: cs => c +:+ "/" +:+ join cs
  end.

(** [posixpath.normpath]: one pass over the components that drops empty
    and [.] components and lets [..] cancel the component before it. *)
Definition normpath_step (initial_slashes : nat) (new_comps : list string)
    (comp : string) : list string :=
  if bool_decide (comp = "") || bool_decide (comp = ".") then new_comps
  else if negb (bool_decide (comp = ".."))
          || (bool_decide (initial_slashes = 0%nat) && bool_decide (new_comps = []))
          || bool_decide (last new_comps = Some "..")
       then new_comps ++ [comp]
       else removelast new_comps.

Definition normpath (path : string) : string :=
  if bool_decide (path = "") then "."
  else
    let initial_slashes :=
      if startswith path "/"
      then if startswith path "//" && negb (startswith path "///") then 2%nat else 1%nat
      else 0%nat in
    let comps := fold_left (normpath_step initial_slashes) (split path) [] in
    let path := String.concat "" (replicate initial_slashes "/") +:+ join comps in
    if bool_decide (path = "") then "." else path.

(** [posixpath.join(a, b)] *)
Definition joinpath (a b : string) : string :=
  if startswith b "/" then b
  else if bool_decide (a = "") || startswith (String.rev a) "/" then a +:+ b
  else a +:+ "/" +:+ b.

(** What the kernel makes of the string [rel] when the lookup starts at
    the directory [base]: an absolute string restarts at the root, [.]
    and empty components stay in place, [..] moves up. *)
Definition resolve_step (acc : Os.path) (comp : string) : Os.path :=
  if bool_decide (comp = "") || bool_decide (comp = ".") then acc
  else if bool_decide (comp = "..") then removelast acc
  else acc ++ [comp].

Definition resolve (base : Os.path) (rel : string) : Os.path :=
  fold_left resolve_step (split rel) (if startswith rel "/" then [] else base).

(** [s.find(c)] and [s.rfind(c)] *)
Fixpoint find (c : ascii) (s : string) : option nat :=
  match s with
  | EmptyString => None
  | String a s' => if Ascii.eqb a c then Some 0%nat else S <$> find c s'
  end.

Fixpoint rfind_from (c : ascii) (s : string) (i : nat) (found : option nat)
    : option nat :=
  match s with
  | EmptyString => found
  | String a s' => rfind_from c s' (S i) (if Ascii.eqb a c then Some i else found)
  end.

Definition rfind (c : ascii) (s : string) : option nat := rfind_from c s 0%nat None.

Fixpoint all_dots (s : string) : bool :=
  match s with
  | EmptyString => true
  | String a s' => Ascii.eqb a "." && all_dots s'
  end.

(** [posixpath.splitext(p)]: the extension starts at the last dot,
    provided that dot lies in the last component and something other
    than dots comes before it there. *)
Definition splitext (p : string) : string * string :=
  match rfind "." p with
  | None => (p, "")
  | Some dot =>
      let filename :=
        match rfind "/" p with
        | Some sep => S sep
        | None => 0%nat
        end in
      if (filename <=? dot)%nat
         && negb (all_dots (String.substring filename (dot - filename) p))
      then (String.substring 0 dot p, String.substring dot (String.length p - dot) p)
      else (p, "")
  end.

(** [s.lower()] and [s.upper()] on the letters of ASCII. The texts
    compared with their results below (HTTP methods, URL schemes, file
    extensions of the type table) are ASCII. *)
Definition lower_ascii (a : ascii) : ascii :=
  let n := nat_of_ascii a in
  if (65 <=? n)%nat && (n <=? 90)%nat then ascii_of_nat (n + 32) else a.

Fixpoint lower (s : string) : string :=
  match s with
  | EmptyString => EmptyString
  | String a s' => String (lower_ascii a) (lower s')
  end.

Definition upper_ascii (a : ascii) : ascii :=
  let n := nat_of_ascii a in
  if (97 <=? n)%nat && (n <=? 122)%nat then ascii_of_nat (n - 32) else a.

Fixpoint upper (s : string) : string :=
  match s with
  | EmptyString => EmptyString
  | String a s' => String (upper_ascii a) (upper s')
  end.

(** [d.get(k)] for a dictionary kept as a list of pairs. *)
Fixpoint assoc {A} (k : string) (l : list (string * A)) : option A :=
  match l with
  | [] => None
  | (k', v) :: l' => if bool_decide (k = k') then Some v else assoc k l'
  end.

End Posix.

(** ** The [mimetypes] module of the standard library *)

Module Mimetypes.
Import Posix.

(** The built-in table of types by extension, [_types_map_default] of
    Python 3.11. *)
Definition types_map_default : list (string * string) :=
  [(".js", "application/javascript"); (".mjs", "application/javascript");
   (".json", "application/json");
   (".webmanifest", "application/manifest+json");
   (".doc", "application/msword"); (".dot", "application/msword");
   (".wiz", "application/msword"); (".nq", "application/n-quads");
   (".nt", "application/n-triples"); (".bin", "application/octet-stream");
   (".a", "application/octet-stream"); (".dll", "application/octet-stream");
   (".exe", "application/octet-stream"); (".o", "application/octet-stream");
   (".obj", "application/octet-stream"); (".so", "application/octet-stream");
   (".oda", "application/oda"); (".pdf", "application/pdf");
   (".p7c", "application/pkcs7-mime"); (".ps", "application/postscript");
   (".ai", "application/postscript"); (".eps", "application/postscript");
   (".trig", "application/trig"); (".m3u", "application/vnd.apple.mpegurl");
   (".m3u8", "application/vnd.apple.mpegurl");
   (".xls", "application/vnd.ms-excel"); (".xlb", "application/vnd.ms-excel");
   (".ppt", "application/vnd.ms-powerpoint");
   (".pot", "application/vnd.ms-powerpoint");
   (".ppa", "application/vnd.ms-powerpoint");
   (".pps", "application/vnd.ms-powerpoint");
   (".pwz", "application/vnd.ms-powerpoint"); (".wasm", "application/wasm");
   (".bcpio", "application/x-bcpio"); (".cpio", "application/x-cpio");
   (".csh", "application/x-csh"); (".dvi", "application/x-dvi");
   (".gtar", "application/x-gtar"); (".hdf", "application/x-hdf");
   (".h5", "application/x-hdf5"); (".latex", "application/x-latex");
   (".mif", "application/x-mif"); (".cdf", "application/x-netcdf");
   (".nc", "application/x-netcdf"); (".p12", "application/x-pkcs12");
   (".pfx", "application/x-pkcs12"); (".ram", "application/x-pn-realaudio");
   (".pyc", "application/x-python-code");
   (".pyo", "application/x-python-code"); (".sh", "application/x-sh");
   (".shar", "application/x-shar"); (".swf", "application/x-shockwave-flash");
   (".sv4cpio", "application/x-sv4cpio"); (".sv4crc", "application/x-sv4crc");
   (".tar", "application/x-tar"); (".tcl", "application/x-tcl");
   (".tex", "application/x-tex"); (".texi", "application/x-texinfo");
   (".texinfo", "application/x-texinfo"); (".roff", "application/x-troff");
   (".t", "application/x-troff"); (".tr", "application/x-troff");
   (".man", "application/x-troff-man"); (".me", "application/x-troff-me");
   (".ms", "application/x-troff-ms"); (".ustar", "application/x-ustar");
   (".src", "application/x-wais-source"); (".xsl", "application/xml");
   (".rdf", "application/xml"); (".wsdl", "application/xml");
   (".xpdl", "application/xml"); (".zip", "application/zip");
   (".3gp", "audio/3gpp"); (".3gpp", "audio/3gpp"); (".3g2", "audio/3gpp2");
   (".3gpp2", "audio/3gpp2"); (".aac", "audio/aac"); (".adts", "audio/aac");
   (".loas", "audio/aac"); (".ass", "audio/aac"); (".au", "audio/basic");
   (".snd", "audio/basic"); (".mp3", "audio/mpeg"); (".mp2", "audio/mpeg");
   (".opus", "audio/opus"); (".aif", "audio/x-aiff");
   (".aifc", "audio/x-aiff"); (".aiff", "audio/x-aiff");
   (".ra", "audio/x-pn-realaudio"); (".wav", "audio/x-wav");
   (".avif", "image/avif"); (".bmp", "image/bmp"); (".gif", "image/gif");
   (".ief", "image/ief"); (".jpg", "image/jpeg"); (".jpe", "image/jpeg");
   (".jpeg", "image/jpeg"); (".heic", "image/heic"); (".heif", "image/heif");
   (".png", "image/png"); (".svg", "image/svg+xml"); (".tiff", "image/tiff");
   (".tif", "image/tiff"); (".ico", "image/vnd.microsoft.icon");
   (".ras", "image/x-cmu-raster"); (".pnm", "image/x-portable-anymap");
   (".pbm", "image/x-portable-bitmap"); (".pgm", "image/x-portable-graymap");
   (".ppm", "image/x-portable-pixmap"); (".rgb", "image/x-rgb");
   (".xbm", "image/x-xbitmap"); (".xpm", "image/x-xpixmap");
   (".xwd", "image/x-xwindowdump"); (".eml", "message/rfc822");
   (".mht", "message/rfc822"); (".mhtml", "message/rfc822");
   (".nws", "message/rfc822"); (".css", "text/css"); (".csv", "text/csv");
   (".html", "text/html"); (".htm", "text/html"); (".n3", "text/n3");
   (".txt", "text/plain"); (".bat", "text/plain"); (".c", "text/plain");
   (".h", "text/plain"); (".ksh", "text/plain"); (".pl", "text/plain");
   (".srt", "text/plain"); (".rtx", "text/richtext");
   (".tsv", "text/tab-separated-values"); (".vtt", "text/vtt");
   (".py", "text/x-python"); (".etx", "text/x-setext");
   (".sgm", "text/x-sgml"); (".sgml", "text/x-sgml"); (".vcf", "text/x-vcard");
   (".xml", "text/xml"); (".mp4", "video/mp4"); (".mpeg", "video/mpeg");
   (".m1v", "video/mpeg"); (".mpa", "video/mpeg"); (".mpe", "video/mpeg");
   (".mpg", "video/mpeg"); (".mov", "video/quicktime");
   (".qt", "video/quicktime"); (".webm", "video/webm");
   (".avi", "video/x-msvideo"); (".movie", "video/x-sgi-movie")].

Definition suffix_map : list (string * string) :=
  [(".svgz", ".svg.gz"); (".tgz", ".tar.gz"); (".taz", ".tar.gz");
   (".tz", ".tar.gz"); (".tbz2", ".tar.bz2"); (".txz", ".tar.xz")].

Definition encodings_map : list (string * string) :=
  [(".gz", "gzip"); (".Z", "compress"); (".bz2", "bzip2"); (".xz", "xz");
   (".br", "br")].

(** The table after [mimetypes.init()]: the entries of the [mime.types]
    files of the system, [system], replace or extend the built-in ones. *)
Definition types_map (system : gmap string string) (ext : string) : option string :=
  match system !! ext with
  | Some t => Some t
  | None => assoc ext types_map_default
  end.

(** [urllib.parse._splittype(url)]: the text before the first colon is
    a scheme when it is not empty and holds no slash. *)
Definition splittype (url : string) : option string * string :=
  match find ":" url with
  | Some (S i) =>
      let scheme := String.substring 0 (S i) url in
      if bool_decide (find "/" scheme = None)
      then (Some (lower scheme),
            String.substring (S (S i)) (String.length url - S (S i)) url)
      else (None, url)
  | _ => (None, url)
  end.

(** [mimetypes.guess_type(url)]: type and encoding. The loop over
    [suffix_map] runs at most once, since no extension that the map
    yields is one of its keys. *)
Definition guess_type (system : gmap string string) (url : string)
    : option string * option string :=
  let '(scheme, url) := splittype url in
  if bool_decide (scheme = Some "data") then
    match find "," url with
    | None => (None, None)
    | Some comma =>
        let head := String.substring 0 comma url in
        let type :=
          match find ";" head with
          | Some semi => String.substring 0 semi url
          | None => head
          end in
        if negb (bool_decide (find "=" type = None)) || bool_decide (find "/" type = None)
        then (Some "text/plain", None)
        else (Some type, None)
    end
  else
    let '(base, ext) := splitext url in
    let '(base, ext) :=
      match assoc (lower ext) suffix_map with
      | Some full => splitext (base +:+ full)
      | None => (base, ext)
      end in
    let '(encoding, ext) :=
      match assoc ext encodings_map with
      | Some enc => (Some enc, (splitext base).2)
      | None => (None, ext)
      end in
    (types_map system (lower ext), encoding).

End Mimetypes.

(** ** The [werkzeug] layer: requests, responses, routing, file sending *)

Module Werkzeug.
Import Os Posix Mimetypes.

(** The entity tag [send_file] computes for a file on disk is
    [f"{mtime}-{size}-{adler32(path)}"]; the three ingredients are kept
    apart instead of being printed into one string. *)
Record ETag := { etag_mtime : Z; etag_size : Z; etag_path : Os.path }.

#[global] Instance ETag_eq_dec : EqDecision ETag.
Proof. solve_decision. Defined.

(** [parse_etags] of an [If-None-Match] or [If-Match] header value. *)
Record ETags := { star_tag : bool; strong : list ETag; weak : list ETag }.

Definition no_etags : ETags := {| star_tag := false; strong := []; weak := [] |}.

Definition etags_bool (t : ETags) : bool :=
  star_tag t || negb (bool_decide (strong t = [])) || negb (bool_decide (weak t = [])).

Definition is_strong (t : ETags) (e : ETag) : bool := bool_decide (e ∈ strong t).

Definition is_weak (t : ETags) (e : ETag) : bool := bool_decide (e ∈ weak t).

Definition contains (t : ETags) (e : ETag) : bool :=
  if star_tag t then true else is_strong t e.

Definition contains_weak (t : ETags) (e : ETag) : bool :=
  is_weak t e || contains t e.

(** [parse_range_header]: a unit and [(begin, end)] pairs, [end]
    exclusive and [None] for an open or a suffix range. *)
Record Range := { units : string; ranges : list (Z * option Z) }.

(** [parse_if_range_header]: a date or an entity tag. *)
Inductive IfRange :=
| IfRangeDate (date : Z)
| IfRangeETag (etag : ETag).

(** A request as the WSGI environ presents it. The five header fields
    that werkzeug's conditional machinery reads are held as the values
    its parsers return; [range] is [None] when the header is absent and
    [Some None] when it is present but does not parse. [headers] holds
    every other header, [data] the request body. *)
Record Request := {
  method : string;
  path : string;
  query_string : string;
  range : option (option Range);
  if_range : option IfRange;
  if_none_match : ETags;
  if_match : ETags;
  if_modified_since : option Z;
  headers : list (string * string);
  data : list Byte.byte
}.

(** Response headers, with their values kept structured. The [Date]
    and [Expires] headers, which need the clock, are left out. *)
Inductive header :=
| ContentType (value : string)
| ContentEncoding (value : string)
| ContentDisposition (value filename : string)
| ContentLength (n : Z)
| ContentRange (unit_ : string) (start stop : option Z) (length : Z)
| AcceptRanges (unit_ : string)
| LastModified (t : Z)
| ETagHeader (e : ETag)
| CacheControl (no_cache public : bool) (max_age : option Z)
| XSendfile (p : Os.path)
| Allow (methods : list string)
| Location (url : string).

Record Response := {
  status_code : Z;
  resp_headers : list header;
  body : list Byte.byte
}.

Fixpoint content_type_of (hs : list header) : option string :=
  match hs with
  | [] => None
  | ContentType v :: _ => Some v
  | _ :: hs' => content_type_of hs'
  end.

(** [Response.content_type]: the header value. *)
Definition content_type (rv : Response) : option string :=
  content_type_of (resp_headers rv).

Fixpoint before_semicolon (s : string) : string :=
  match s with
  | EmptyString => EmptyString
  | String a s' => if Ascii.eqb a ";" then EmptyString else String a (before_semicolon s')
  end.


Definition charset_mimetypes : list string :=
  ["application/ecmascript"; "application/javascript"; "application/sql";
   "application/xml"; "application/xml-dtd";
   "application/xml-external-parsed-entity"].

(** [get_content_type(mimetype, charset)] *)
Definition get_content_type (mt charset : string) : string :=
  if startswith mt "text/" || bool_decide (mt ∈ charset_mimetypes)
     || startswith (String.rev mt) (String.rev "+xml")
  then mt +:+ "; charset=" +:+ charset
  else mt.

(** *** Conditional and range requests *)

(** [is_resource_modified(environ, etag, None, last_modified, ignore_if_range)] *)
Definition is_resource_modified (req : Request) (etag : ETag) (last_modified : Z)
    (ignore_if_range : bool) : bool :=
  let if_range_ :=
    if negb ignore_if_range && bool_decide (is_Some (range req))
    then if_range req else None in
  let modified_since :=
    match if_range_ with
    | Some (IfRangeDate d) => Some d
    | _ => if_modified_since req
    end in
  let unmodified :=
    match modified_since with
    | Some d => last_modified <=? d
    | None => false
    end in
  let unmodified :=
    match if_range_ with
    | Some (IfRangeETag e) => bool_decide (etag = e)
    | _ =>
        let unmodified :=
          if etags_bool (if_none_match req)
          then contains_weak (if_none_match req) etag else unmodified in
        if etags_bool (if_match req)
        then negb (is_strong (if_match req) etag) else unmodified
    end in
  negb unmodified.

(** [is_byte_range_valid(start, stop, length)] with all three given. *)
Definition is_byte_range_valid (start stop length : Z) : bool :=
  if stop <=? start then false else (0 <=? start) && (start <? length).

(** [Range.range_for_length(length)] *)
Definition range_for_length (r : Range) (length : Z) : option (Z * Z) :=
  if negb (bool_decide (units r = "bytes")) then None
  else
    match ranges r with
    | [(start, stop)] =>
        let '(start, stop) :=
          match stop with
          | Some e => (start, e)
          | None => (if start <? 0 then start + length else start, length)
          end in
        if is_byte_range_valid start stop length
        then Some (start, Z.min stop length) else None
    | _ => None
    end.

(** [Response._is_range_request_processable(environ)] *)
Definition is_range_request_processable (req : Request) (etag : ETag)
    (last_modified : Z) : bool :=
  (bool_decide (if_range req = None)
   || negb (is_resource_modified req etag last_modified false))
  && bool_decide (is_Some (range req)).

(** [Response._process_range_request(environ, complete_length, True)]:
    [None] when the request is not a range request that applies, the
    byte interval to send otherwise. *)
Definition process_range_request (req : Request) (etag : ETag) (last_modified : Z)
    (complete_length : Z) : exception + option (Z * Z) :=
  match range req with
  | None => inr None
  | Some parsed_range =>
      if (complete_length =? 0)
         || negb (is_range_request_processable req etag last_modified)
      then inr None
      else
        match parsed_range with
        | None => inl (RequestedRangeNotSatisfiable complete_length)
        | Some r =>
            match range_for_length r complete_length with
            | None => inl (RequestedRangeNotSatisfiable complete_length)
            | Some (start, stop) => inr (Some (start, stop))
            end
        end
  end.

Definition slice {A} (start stop : Z) (l : list A) : list A :=
  take (Z.to_nat (stop - start)) (drop (Z.to_nat start) l).

Definition is_content_length (h : header) : bool :=
  match h with
  | ContentLength _ => true
  | _ => false
  end.

Definition set_content_length (n : Z) (hs : list header) : list header :=
  ContentLength n :: List.filter (fun h => negb (is_content_length h)) hs.

Definition with_accept_ranges (rv : Response) : Response :=
  {| status_code := status_code rv;
     resp_headers := resp_headers rv ++ [AcceptRanges "bytes"];
     body := body rv |}.

(** [Response.make_conditional(environ, accept_ranges=True,
    complete_length=size)] for a response that has its entity tag and
    modification time set. The method is read from the WSGI environ as
    the client wrote it; an answer that went through the conditional
    processing says [Accept-Ranges: bytes]. *)
Definition make_conditional (req : Request) (etag : ETag) (last_modified : Z)
    (complete_length : Z) (rv : Response) : exception + Response :=
  if bool_decide (method req = "GET") || bool_decide (method req = "HEAD") then
    let rv := with_accept_ranges rv in
    match process_range_request req etag last_modified complete_length with
    | inl e => inl e
    | inr (Some (start, stop)) =>
        inr {| status_code := 206;
               resp_headers :=
                 set_content_length (stop - start) (resp_headers rv)
                 ++ [ContentRange "bytes" (Some start) (Some (stop - 1)) complete_length];
               body := slice start stop (body rv) |}
    | inr None =>
        if negb (is_resource_modified req etag last_modified true) then
          inr {| status_code := if etags_bool (if_match req) then 412 else 304;
                 resp_headers := resp_headers rv;
                 body := body rv |}
        else inr rv
    end
  else inr rv.

(** *** Sending files *)

Definition is_x_sendfile (h : header) : bool :=
  match h with
  | XSendfile _ => true
  | _ => false
  end.

(** [rv.headers.pop("x-sendfile", None)] *)
Definition without_x_sendfile (rv : Response) : Response :=
  {| status_code := status_code rv;
     resp_headers := List.filter (fun h => negb (is_x_sendfile h)) (resp_headers rv);
     body := body rv |}.

(** [send_file(path, environ, use_x_sendfile=..., max_age=...,
    conditional=True)] for a path on disk; [types] holds what the
    system's [mime.types] files add to the type table. *)
Definition send_file (types : gmap string string) (p : Os.path)
    (use_x_sendfile : bool) (max_age : option Z) (req : Request) : io Response :=
  '(size, mtime) ← stat p;
  let download_name := default "" (last p) in
  let '(guessed, encoding) := guess_type types download_name in
  let mt := default "application/octet-stream" guessed in
  content ← (if use_x_sendfile then ret [] else open_rb p);
  let cache :=
    match max_age with
    | None => CacheControl true false None
    | Some n => if 0 <? n then CacheControl false true (Some n)
                else CacheControl true false (Some n)
    end in
  let etag := {| etag_mtime := mtime; etag_size := size; etag_path := p |} in
  let rv :=
    {| status_code := 200;
       resp_headers :=
         match encoding with
         | Some enc => [ContentEncoding enc]
         | None => []
         end
         ++ [ContentDisposition "inline" download_name]
         ++ (if use_x_sendfile then [XSendfile p] else [])
         ++ [ContentType (get_content_type mt "utf-8"); ContentLength size;
             LastModified mtime; cache; ETagHeader etag];
       body := content |} in
  rv ← lift (make_conditional req etag mtime size rv);
  ret (if use_x_sendfile && (status_code rv =? 304) then without_x_sendfile rv else rv).

(** [safe_join(directory, filename)]: [None] when the untrusted
    [filename] would leave [directory]. *)
Definition safe_join (directory filename : string) : option string :=
  let directory := if bool_decide (directory = "") then "." else directory in
  let filename := if bool_decide (filename = "") then filename else normpath filename in
  if startswith filename "/" || bool_decide (filename = "..") || startswith filename "../"
  then None
  else Some (joinpath directory filename).

(** [send_from_directory(directory, path, environ, _root_path=root_path)] *)
Definition send_from_directory (types : gmap string string) (root_path : Os.path)
    (directory path_ : string) (use_x_sendfile : bool) (max_age : option Z)
    (req : Request) : io Response :=
  match safe_join directory path_ with
  | None => raise NotFound
  | Some path_str =>
      let full := resolve root_path path_str in
      isf ← path_isfile full;
      if negb isf then raise NotFound
      else send_file types full use_x_sendfile max_age req
  end.

End Werkzeug.

(** ** URL routing ([werkzeug.routing]) *)

Module Routing.
Import Os Posix Mimetypes Werkzeug.

(** The two shapes of rule string this application has: a literal path,
    and a literal prefix followed by one [<path:name>] converter. *)
Inductive pattern :=
| Exact (s : string)
| PathSuffix (prefix name : string).

Fixpoint split_at (c : ascii) (s : string) : string * option string :=
  match s with
  | EmptyString => (EmptyString, None)
  | String a s' =>
      if Ascii.eqb a c then (EmptyString, Some s')
      else let '(l, r) := split_at c s' in (String a l, r)
  end.

Definition parse_rule (s : string) : pattern :=
  match split_at "<" s with
  | (lit, Some conv) =>
      match strip_prefix "path:" conv with
      | Some rest =>
          match split_at ">" rest with
          | (name, Some EmptyString) => PathSuffix lit name
          | _ => Exact s
          end
      | None => Exact s
      end
  | (_, None) => Exact s
  end.

(** [Rule.methods] already holds the [HEAD] that werkzeug adds next to
    [GET] and the [OPTIONS] that Flask adds. *)
Record Rule := { rule : string; endpoint : string; methods : list string }.

(** The regular expression of the [path] converter is [[^/].*?],
    matched up to the end of the path; its dot does not match a line
    feed. *)
Definition path_converter (s : string) : bool :=
  match s with
  | String a rest => negb (is_slash a) && bool_decide (find "010" rest = None)
  | EmptyString => false
  end.

Inductive rule_match :=
| Hit (view_args : list (string * string))
| SlashRequired
| Miss.

(** A rule that ends in a slash also recognises the path without it and
    then asks for a redirect ([strict_slashes]). *)
Definition match_rule (r : Rule) (p : string) : rule_match :=
  match parse_rule (rule r) with
  | Exact s =>
      if bool_decide (s = p) then Hit []
      else if bool_decide (s = p +:+ "/") then SlashRequired
      else Miss
  | PathSuffix prefix name =>
      match strip_prefix prefix p with
      | Some rest => if path_converter rest then Hit [(name, rest)] else Miss
      | None => Miss
      end
  end.

Inductive outcome :=
| Found (r : Rule) (view_args : list (string * string))
| NeedSlash
| NotMatched (have_match_for : list string).

(** One pass over the rules for the method [m], which the caller has
    put in upper case; the rules of this application match disjoint sets
    of paths, so the order in which werkzeug weighs them does not
    matter. *)
Fixpoint match_rules (rules : list Rule) (m p : string) (have : list string) : outcome :=
  match rules with
  | [] => NotMatched have
  | r :: rs =>
      match match_rule r p with
      | Hit args =>
          if bool_decide (m ∈ methods r) then Found r args
          else match_rules rs m p (list_union have (methods r))
      | SlashRequired =>
          if bool_decide (m ∈ methods r) then NeedSlash
          else match_rules rs m p have
      | Miss => match_rules rs m p have
      end
  end.

(** The path with every run of slashes merged into one: a slash that
    another slash follows is dropped. *)
Fixpoint merge_slashes (s : string) : string :=
  match s with
  | EmptyString => EmptyString
  | String a s' =>
      match s' with
      | String b _ =>
          if is_slash a && is_slash b then merge_slashes s'
          else String a (merge_slashes s')
      | EmptyString => String a EmptyString
      end
  end.

(** [MapAdapter.match]: leading slashes of [PATH_INFO] collapse into
    one and the method is put in upper case; a path that only matches
    after merging slashes, or after adding a final slash, is answered
    with a redirect. *)
Definition path_part (path_info : string) : string :=
  if bool_decide (path_info = "") then "" else "/" +:+ lstrip_slash path_info.

Definition url_match (rules : list Rule) (req : Request)
    : exception + (Rule * list (string * string)) :=
  let p := path_part (path req) in
  let m := upper (method req) in
  match match_rules rules m p [] with
  | Found r args => inr (r, args)
  | NeedSlash => inl (RequestRedirect (p +:+ "/"))
  | NotMatched have =>
      let merged := merge_slashes p in
      match match_rules rules m merged have with
      | Found _ _ => inl (RequestRedirect merged)
      | NeedSlash => inl (RequestRedirect (merged +:+ "/"))
      | NotMatched have' =>
          if bool_decide (have' = []) then inl NotFound
          else inl (MethodNotAllowed have')
      end
  end.

End Routing.

(** ** The [flask] layer: application object and request dispatch *)

Module Flask.
Import Os Posix Mimetypes Werkzeug Routing.

Inductive pyvalue :=
| PyNone
| PyBool (b : bool)
| PyInt (n : Z)
| PyStr (s : string).

Definition truthy (v : pyvalue) : bool :=
  match v with
  | PyNone => false
  | PyBool b => b
  | PyInt n => negb (n =? 0)
  | PyStr s => negb (bool_decide (s = ""))
  end.

(** What the helpers that views call find around them: attributes of
    [current_app], and the entries that the [mime.types] files of the
    system add to the type table of [mimetypes]. *)
Record Context := {
  import_name : string;
  root_path : Os.path;
  static_folder : option string;
  static_url_path : string;
  config : gmap string pyvalue;
  types_db : gmap string string
}.

Definition View : Type := Context -> list (string * string) -> Request -> io Response.

Record App := {
  ctx : Context;
  url_map : list Rule;
  view_functions : list (string * View)
}.

(** The entries of [Flask.default_config] that the code below reads,
    and the debug and testing flags. *)
Definition default_config : gmap string pyvalue :=
  <["DEBUG" := PyNone]>
  (<["TESTING" := PyBool false]>
  (<["PROPAGATE_EXCEPTIONS" := PyNone]>
  (<["USE_X_SENDFILE" := PyBool false]>
  (<["SEND_FILE_MAX_AGE_DEFAULT" := PyNone]>
  (<["TRAP_BAD_REQUEST_ERRORS" := PyNone]>
  (<["TRAP_HTTP_EXCEPTIONS" := PyBool false]> ∅)))))).

(** [app.config[key]] for a key that is present. *)
Definition config_get (c : Context) (key : string) : pyvalue :=
  default PyNone (config c !! key).

(** [app.config[key] = value] *)
Definition config_set (a : App) (key : string) (value : pyvalue) : App :=
  {| ctx := {| import_name := import_name (ctx a);
               root_path := root_path (ctx a);
               static_folder := static_folder (ctx a);
               static_url_path := static_url_path (ctx a);
               config := <[key := value]> (config (ctx a));
               types_db := types_db (ctx a) |};
     url_map := url_map a;
     view_functions := view_functions a |}.

(** [app.get_send_file_max_age(filename)] *)
Definition get_send_file_max_age (c : Context) : option Z :=
  match config_get c "SEND_FILE_MAX_AGE_DEFAULT" with
  | PyInt n => Some n
  | _ => None
  end.

(** [flask.send_from_directory(directory, path)]: werkzeug's function
    with the application's root path, [USE_X_SENDFILE] and max age. *)
Definition send_from_directory (c : Context) (directory path_ : string)
    (req : Request) : io Response :=
  Werkzeug.send_from_directory (types_db c) (root_path c) directory path_
    (truthy (config_get c "USE_X_SENDFILE")) (get_send_file_max_age c) req.

(** [app.send_static_file(filename)], the view of the [static] endpoint. *)
Definition send_static_file : View :=
  fun c view_args req =>
    match static_folder c with
    | None => raise RuntimeError
    | Some folder =>
        match assoc "filename" view_args with
        | None => raise TypeError
        | Some filename => send_from_directory c folder filename req
        end
    end.

(** [app.add_url_rule(rule, endpoint, view_func)] with the default
    methods: [GET], hence [HEAD], and the automatic [OPTIONS]. *)
Definition add_url_rule (a : App) (rule_ endpoint_ : string) (view_func : View) : App :=
  {| ctx := ctx a;
     url_map := url_map a ++
       [{| rule := rule_; endpoint := endpoint_; methods := ["GET"; "HEAD"; "OPTIONS"] |}];
     view_functions := (endpoint_, view_func) :: view_functions a |}.

(** [@app.route(rule)] applied to the function named [name]. *)
Definition route (a : App) (rule_ name : string) (f : View) : App :=
  add_url_rule a rule_ name f.

(** [Flask(import_name)] in an interpreter whose system adds [types] to
    the type table: [root_path] is the directory of the module that
    [import_name] names; the static folder defaults to [static] and,
    being set, makes the constructor register the [static] endpoint
    under [/static/<path:filename>]. *)
Definition init (import_name_ : string) (module_dir : Os.path)
    (types : gmap string string) : App :=
  let c := {| import_name := import_name_;
              root_path := module_dir;
              static_folder := Some "static";
              static_url_path := "/static";
              config := default_config;
              types_db := types |} in
  let a := {| ctx := c; url_map := []; view_functions := [] |} in
  match static_folder c with
  | Some _ => add_url_rule a (static_url_path c +:+ "/<path:filename>") "static" send_static_file
  | None => a
  end.

(** *** HTTP exceptions as responses *)

Definition is_http_exception (e : exception) : bool :=
  match e with
  | NotFound | MethodNotAllowed _ | RequestedRangeNotSatisfiable _
  | RequestRedirect _ => true
  | _ => false
  end.

Definition http_code (e : exception) : Z :=
  match e with
  | NotFound => 404
  | MethodNotAllowed _ => 405
  | RequestedRangeNotSatisfiable _ => 416
  | RequestRedirect _ => 308
  | _ => 500
  end.

Definition http_name (e : exception) : string :=
  match e with
  | NotFound => "Not Found"
  | MethodNotAllowed _ => "Method Not Allowed"
  | RequestedRangeNotSatisfiable _ => "Requested Range Not Satisfiable"
  | RequestRedirect _ => "Permanent Redirect"
  | _ => "Internal Server Error"
  end.

(** [HTTPException.get_response()]: the status of the exception, its
    own headers, and an HTML page that is cut down here to the name of
    the error. *)
Definition get_response (e : exception) : Response :=
  {| status_code := http_code e;
     resp_headers :=
       ContentType "text/html; charset=utf-8" ::
       match e with
       | MethodNotAllowed ms => [Allow ms]
       | RequestedRangeNotSatisfiable n => [ContentRange "bytes" None None n]
       | RequestRedirect url => [Location url]
       | _ => []
       end;
     body := String.list_byte_of_string (http_name e) |}.

(** [app.trap_http_exception(e)]; no exception here is a [BadRequest]. *)
Definition trap_http_exception (c : Context) (e : exception) : bool :=
  truthy (config_get c "TRAP_HTTP_EXCEPTIONS").

(** [app.handle_user_exception(e)]: an HTTP exception that is not
    trapped becomes the response (no error handler is registered);
    anything else is raised again. *)
Definition handle_user_exception (a : App) (e : exception) : io Response :=
  if is_http_exception e && negb (trap_http_exception (ctx a) e)
  then ret (get_response e)
  else raise e.

(** [app.make_default_options_response()] *)
Definition make_default_options_response (r : Rule) : Response :=
  {| status_code := 200;
     resp_headers := [ContentType "text/html; charset=utf-8"; Allow (methods r)];
     body := [] |}.

(** [app.dispatch_request()], with the URL matching that the request
    context did before; [request.method] is the method in upper case. *)
Definition dispatch_request (a : App) (req : Request) : io Response :=
  match url_match (url_map a) req with
  | inl routing_exception => raise routing_exception
  | inr (r, view_args) =>
      if bool_decide (upper (method req) = "OPTIONS")
      then ret (make_default_options_response r)
      else match assoc (endpoint r) (view_functions a) with
           | Some view => view (ctx a) view_args req
           | None => raise KeyError
           end
  end.

(** [app.full_dispatch_request()] *)
Definition full_dispatch_request (a : App) (req : Request) : io Response :=
  try_except (dispatch_request a req) (handle_user_exception a).

(** [app.handle_exception(e)]: what is left is answered with status
    500, by the application or, in debug mode, by the debugger that
    wraps it; the page is cut down to the name of the error. *)
Definition handle_exception (e : exception) : Response :=
  {| status_code := 500;
     resp_headers := [ContentType "text/html; charset=utf-8"];
     body := String.list_byte_of_string "Internal Server Error" |}.

Definition is_entity_header (h : header) : bool :=
  match h with
  | ContentType _ | ContentEncoding _ | ContentLength _ | ContentRange _ _ _ _
  | LastModified _ | Allow _ => true
  | _ => false
  end.

(** [Response.get_wsgi_response(environ)]: no body for [HEAD] (the
    method as the environ has it), 1xx, 204 and 304; no entity headers
    on 304. *)
Definition get_wsgi_response (req : Request) (rv : Response) : Response :=
  let s := status_code rv in
  {| status_code := s;
     resp_headers :=
       if s =? 304 then List.filter (fun h => negb (is_entity_header h)) (resp_headers rv)
       else if ((100 <=? s) && (s <? 200)) || (s =? 204)
       then List.filter (fun h => negb (is_content_length h)) (resp_headers rv)
       else resp_headers rv;
     body :=
       if bool_decide (method req = "HEAD") || ((100 <=? s) && (s <? 200))
          || (s =? 204) || (s =? 304)
       then [] else body rv |}.

(** [app.wsgi_app(environ, start_response)] *)
Definition wsgi_app (a : App) (req : Request) : io Response :=
  rv ← try_except (full_dispatch_request a req) (fun e => ret (handle_exception e));
  ret (get_wsgi_response req rv).

(** The server loop, as the application sees it: [incoming] lists the
    requests that the server hands to the application, and each is
    answered with a call of [wsgi_app]. The development server runs
    these calls in threads; the loop lists their system calls request
    by request. *)
Fixpoint serve_forever (a : App) (incoming : list Request) : io (list Response) :=
  match incoming with
  | [] => ret []
  | req :: rest =>
      rv ← wsgi_app a req;
      _ ← emit (Respond (status_code rv));
      rvs ← serve_forever a rest;
      ret (rv :: rvs)
  end.

(** [app.run(debug=debug)]: set the debug flag, open the listening
    socket, serve. With [debug] set the development server also puts
    werkzeug's debugger in front of the application and a reloader
    around the process. Neither is described here: the debugger
    answers by itself the requests addressed to it ([/console] and
    query strings with [__debugger__=yes]), which are therefore not
    among [incoming], and hands every other request to the application
    unchanged; the reloader runs the file a second time in a child
    process that does the serving, and [main] below is the run of the
    file in one process. The port is taken to be free. *)
Definition run (a : App) (debug : bool) (incoming : list Request) : io (list Response) :=
  let a := config_set a "DEBUG" (PyBool debug) in
  _ ← emit Listen;
  serve_forever a incoming.

End Flask.

(** ** app.py *)

Module App.
Import Os Posix Mimetypes Werkzeug Routing Flask.

(** Where and how the interpreter runs the file: the working directory,
    the directory that holds app.py, the module's [__name__], and the
    entries that the [mime.types] files of the system add to the type
    table of [mimetypes]. *)
Record Process := {
  cwd : Os.path;
  module_dir : Os.path;
  __name__ : string;
  mime_types : gmap string string
}.

Definition UPLOAD_FOLDER : string := "uploads".
Definition PROCESSED_FOLDER : string := "processed_videos".
Definition TEMPLATES_FOLDER : string := "templates".
Definition STATIC_FOLDER : string := "static".

(** [def index(): return send_from_directory(TEMPLATES_FOLDER, 'index.html')] *)
Definition index : View :=
  fun c _ req => send_from_directory c TEMPLATES_FOLDER "index.html" req.

(** Lines 5 to 13: the application object and its two config entries. *)
Definition app0 (proc : Process) : App :=
  let app := init (__name__ proc) (module_dir proc) (mime_types proc) in
  let app := config_set app "UPLOAD_FOLDER" (PyStr UPLOAD_FOLDER) in
  let app := config_set app "PROCESSED_FOLDER" (PyStr PROCESSED_FOLDER) in
  app.

(** Lines 16 to 19: the four [os.makedirs] calls. *)
Definition provision (proc : Process) : io unit :=
  _ ← makedirs (cwd proc) UPLOAD_FOLDER true;
  _ ← makedirs (cwd proc) PROCESSED_FOLDER true;
  _ ← makedirs (cwd proc) TEMPLATES_FOLDER true;
  makedirs (cwd proc) STATIC_FOLDER true.

(** Lines 21 to 23: the decorated view. *)
Definition app (proc : Process) : App :=
  route (app0 proc) "/" "index" index.

(** What a run of the file comes to: an uncaught exception and a
    traceback, a module that was imported and left to its importer, or
    a server that answered the requests it received. *)
Inductive outcome :=
| Crashed (e : exception)
| Imported (a : App)
| Served (responses : list Response).

(** The module body from line 15 on, for the application object [a]
    that the lines above it built. *)
Definition main_from (a : App) (proc : Process) (incoming : list Request)
    : filesystem -> list event * filesystem * outcome :=
  fun fs =>
    match provision proc fs with
    | (t1, fs1, inl e) => (t1, fs1, Crashed e)
    | (t1, fs1, inr _) =>
        let a := route a "/" "index" index in
        if bool_decide (__name__ proc = "__main__") then
          match run a true incoming fs1 with
          | (t2, fs2, inl e) => (t1 ++ t2, fs2, Crashed e)
          | (t2, fs2, inr rvs) => (t1 ++ t2, fs2, Served rvs)
          end
        else (t1, fs1, Imported a)
    end.

(** The module body, top to bottom. *)
Definition main (proc : Process) (incoming : list Request)
    : filesystem -> list event * filesystem * outcome :=
  main_from (app0 proc) proc incoming.

(** app.py without lines 12 and 13. *)
Definition app_without_config (proc : Process) : App :=
  route (init (__name__ proc) (module_dir proc) (mime_types proc)) "/" "index" index.

Definition main_without_config (proc : Process) (incoming : list Request)
    : filesystem -> list event * filesystem * outcome :=
  main_from (init (__name__ proc) (module_dir proc) (mime_types proc)) proc incoming.

End App.

(** ** Vocabulary of the statements *)

Module Spec.
Import Os Posix Mimetypes Werkzeug Routing Flask App.

(** The four directories of lines 7 to 10. *)
Definition directories : list string :=
  [UPLOAD_FOLDER; PROCESSED_FOLDER; TEMPLATES_FOLDER; STATIC_FOLDER].

(** The application object that [main] hands to the server: the one of
    line 23 with the debug flag that [app.run(debug=True)] sets. *)
Definition served_app (proc : Process) : App :=
  config_set (app proc) "DEBUG" (PyBool true).

(** [templates/index.html] as [send_from_directory] resolves it:
    against the root path of the application. *)
Definition index_path (proc : Process) : Os.path :=
  module_dir proc ++ [TEMPLATES_FOLDER; "index.html"].

(** The response a request receives on a given file system. *)
Definition respond (a : App) (fs : filesystem) (req : Request) : Response :=
  match result_of (wsgi_app a req fs) with
  | inr rv => rv
  | inl e => handle_exception e
  end.

(** A computation that leaves the file system as it found it and
    performs only events that satisfy [ok]. *)
Definition confined {A} (ok : event -> Prop) (m : io A) : Prop :=
  forall fs, fs_of (m fs) = fs /\ Forall ok (trace_of (m fs)).

Definition reads (e : event) : Prop := is_read e = true.

Definition no_write (e : event) : Prop := is_write e = false.

Definition touches (p : Os.path) (e : event) : Prop :=
  e = SysStat p \/ e = SysOpen p.

Definition views_confined (ok : event -> Prop) (a : App) : Prop :=
  forall name view, (name, view) ∈ view_functions a ->
    forall args req, confined ok (view (ctx a) args req).

(** Every name is a directory already, or is free in a working
    directory that the process may write to. *)
Definition provisionable (proc : Process) (fs : filesystem) : Prop :=
  forall d, d ∈ directories ->
    is_dir fs (cwd proc ++ [d]) = true
    \/ (fs !! (cwd proc ++ [d]) = None /\ fs !! cwd proc = Some (Dir true)).

(** [fs'] has every entry of [fs], unchanged. *)
Definition extends (fs fs' : filesystem) : Prop :=
  forall p, is_Some (fs !! p) -> fs' !! p = fs !! p.

(** The calls of [provision] as a loop over the names. *)
Fixpoint makedirs_all (cwd : Os.path) (names : list string) : io unit :=
  match names with
  | [] => ret tt
  | name :: rest => _ ← makedirs cwd name true; makedirs_all cwd rest
  end.

Definition is_serving_event (e : event) : bool :=
  match e with
  | Listen | Respond _ => true
  | _ => false
  end.

(** A trace without [Listen] and without [Respond]. *)
Definition quiet (t : list event) : Prop :=
  Forall (fun ev => is_serving_event ev = false) t.

(** What [wsgi_app] makes of the result of [dispatch_request]. *)
Definition finalize (a : App) (req : Request) (r : exception + Response) : Response :=
  get_wsgi_response req
    match r with
    | inr rv => rv
    | inl e =>
        if is_http_exception e && negb (trap_http_exception (ctx a) e)
        then get_response e else handle_exception e
    end.

(** A word without slash. *)
Fixpoint no_slash (w : string) : bool :=
  match w with
  | EmptyString => true
  | String a w' => negb (is_slash a) && no_slash w'
  end.



(** Two contexts that agree on what the views and the dispatcher read. *)
Definition ctx_agree (c1 c2 : Context) : Prop :=
  root_path c1 = root_path c2
  /\ types_db c1 = types_db c2
  /\ static_folder c1 = static_folder c2
  /\ config_get c1 "USE_X_SENDFILE" = config_get c2 "USE_X_SENDFILE"
  /\ config_get c1 "SEND_FILE_MAX_AGE_DEFAULT" = config_get c2 "SEND_FILE_MAX_AGE_DEFAULT"
  /\ config_get c1 "TRAP_HTTP_EXCEPTIONS" = config_get c2 "TRAP_HTTP_EXCEPTIONS".

(** Outcomes that no client and no importer can tell apart: an imported
    application is known by the responses it gives. *)
Definition outcome_equiv (o1 o2 : outcome) : Prop :=
  match o1, o2 with
  | Crashed e1, Crashed e2 => e1 = e2
  | Served r1, Served r2 => r1 = r2
  | Imported a1, Imported a2 =>
      forall req fs, wsgi_app a1 req fs = wsgi_app a2 req fs
  | _, _ => False
  end.

(** The response of [send_file] before [make_conditional] looks at the
    request. *)
Definition file_response (types : gmap string string) (p : Os.path)
    (content : list Byte.byte) (mtime : Z) (max_age : option Z) : Response :=
  {| status_code := 200;
     resp_headers :=
       match (guess_type types (default "" (last p))).2 with
       | Some enc => [ContentEncoding enc]
       | None => []
       end
       ++ [ContentDisposition "inline" (default "" (last p));
        ContentType
          (get_content_type
             (default "application/octet-stream"
                (guess_type types (default "" (last p))).1)
             "utf-8");
        ContentLength (Z.of_nat (length content));
        LastModified mtime;
        match max_age with
        | None => CacheControl true false None
        | Some n => if 0 <? n then CacheControl false true (Some n)
                    else CacheControl true false (Some n)
        end;
        ETagHeader {| etag_mtime := mtime; etag_size := Z.of_nat (length content);
                      etag_path := p |}];
     body := content |}.

Definition file_etag (p : Os.path) (content : list Byte.byte) (mtime : Z) : ETag :=
  {| etag_mtime := mtime; etag_size := Z.of_nat (length content); etag_path := p |}.




(** A path component that names an entry: not empty, not [.], not
    [..], and without slash. *)
Definition ordinary (c : string) : Prop :=
  c <> "" /\ c <> "." /\ c <> ".." /\ no_slash c = true.

(** The shape [posixpath.normpath] keeps for a relative path: leading
    [..] components, then components that name entries. *)
Definition normal_shape (comps : list string) : Prop :=
  exists k rest, comps = replicate k ".." ++ rest /\ Forall ordinary rest.

(** A stat or an open of [templates/index.html] or of a path below the
    static folder of the application. *)
Definition within (proc : Process) (e : event) : Prop :=
  exists p, (e = SysStat p \/ e = SysOpen p)
            /\ (p = index_path proc
                \/ (module_dir proc ++ [STATIC_FOLDER]) `prefix_of` p).

End Spec.

(** ** Sample data *)

Module Sample.
Import Os Posix Mimetypes Werkzeug Routing Flask App Spec.

(** The script started in its own directory, on a system without
    [mime.types] files. *)
Definition proc : Process :=
  {| cwd := ["srv"; "app"]; module_dir := ["srv"; "app"]; __name__ := "__main__";
     mime_types := ∅ |}.

Definition hello : list Byte.byte := String.list_byte_of_string "<html>Hello</html>".

(** An empty, writable application directory. *)
Definition fresh : filesystem := {[ ["srv"; "app"] := Dir true ]}.

(** The application directory after startup. *)
Definition provisioned : filesystem := fs_of (provision proc fresh).

(** The same with [templates/index.html] and a style sheet deployed. *)
Definition site : filesystem :=
  <[ ["srv"; "app"; "templates"; "index.html"] := File hello 1700000000 ]>
  (<[ ["srv"; "app"; "static"; "app.css"] :=
        File (String.list_byte_of_string "body{}") 1700000000 ]> provisioned).

(** A regular file sits where the upload directory should be. *)
Definition blocked : filesystem :=
  <[ ["srv"; "app"; "uploads"] := File [] 0 ]> fresh.

Definition get (p : string) : Request :=
  {| method := "GET"; path := p; query_string := "";
     range := None; if_range := None;
     if_none_match := no_etags; if_match := no_etags; if_modified_since := None;
     headers := []; data := [] |}.

(** [GET /?lang=fr HTTP/1.1] with a cookie, a user agent and a body. *)
Definition get_noisy : Request :=
  {| method := "GET"; path := "/"; query_string := "lang=fr";
     range := None; if_range := None;
     if_none_match := no_etags; if_match := no_etags; if_modified_since := None;
     headers := [("Cookie", "session=../../etc/passwd"); ("User-Agent", "curl/8.5.0")];
     data := String.list_byte_of_string "file=../secret.txt" |}.

(** [GET / HTTP/1.1] with [Range: bytes=0-4]. *)
Definition get_first_bytes : Request :=
  {| method := "GET"; path := "/"; query_string := "";
     range := Some (Some {| units := "bytes"; ranges := [(0, Some 5)] |});
     if_range := None;
     if_none_match := no_etags; if_match := no_etags; if_modified_since := None;
     headers := []; data := [] |}.


(** [POST / HTTP/1.1] with a form body. *)
Definition post_root : Request :=
  {| method := "POST"; path := "/"; query_string := "";
     range := None; if_range := None;
     if_none_match := no_etags; if_match := no_etags; if_modified_since := None;
     headers := [("Content-Type", "application/x-www-form-urlencoded")];
     data := String.list_byte_of_string "video=clip.mp4" |}.







(** A regular file sits where the second directory should be. *)
Definition blocked_second : filesystem :=
  <[ ["srv"; "app"; "processed_videos"] := File [] 0 ]> fresh.





(** A system whose [mime.types] file declares [.html] as XHTML. *)
Definition xhtml : Process :=
  {| cwd := ["srv"; "app"]; module_dir := ["srv"; "app"]; __name__ := "__main__";
     mime_types := {[ ".html" := "application/xhtml+xml" ]} |}.

(** [get / HTTP/1.1], the method in lower case. *)
Definition get_lower_case : Request :=
  {| method := "get"; path := "/"; query_string := "";
     range := None; if_range := None;
     if_none_match := no_etags; if_match := no_etags; if_modified_since := None;
     headers := []; data := [] |}.

End Sample.

(** ** Proofs *)

Module Proofs.
Import Os Posix Mimetypes Werkzeug Routing Flask App Spec.

#[local] Arguments Ascii.eqb : simpl never.

(** *** Strings *)

Lemma append_nil s : "" +:+ s = s.
Proof. reflexivity. Qed.

Lemma append_cons c w s : String c w +:+ s = String c (w +:+ s).
Proof. reflexivity. Qed.









(** *** The monad *)

Lemma bind_run {A B} (m : io A) (k : A -> io B) fs :
  (m ≫= k) fs =
  match m fs with
  | (t1, fs1, inl e) => (t1, fs1, inl e)
  | (t1, fs1, inr a) =>
      match k a fs1 with
      | (t2, fs2, r) => (t1 ++ t2, fs2, r)
      end
  end.
Proof. reflexivity. Qed.

Lemma confined_ret {A} ok (a : A) : confined ok (ret a).
Proof. intros fs. split; [reflexivity | constructor]. Qed.

Lemma confined_raise {A} ok e : confined ok (@raise A e).
Proof. intros fs. split; [reflexivity | constructor]. Qed.

Lemma confined_lift {A} ok (r : exception + A) : confined ok (lift r).
Proof. intros fs. split; [reflexivity | constructor]. Qed.

Lemma confined_bind {A B} ok (m : io A) (k : A -> io B) :
  confined ok m -> (forall a, confined ok (k a)) -> confined ok (m ≫= k).
Proof.
  intros Hm Hk fs. rewrite bind_run.
  destruct (Hm fs) as [Hfs Htr]. unfold fs_of, trace_of in *.
  destruct (m fs) as [[t1 fs1] [e | a]]; simpl in *; [done |].
  subst fs1. destruct (Hk a fs) as [Hfs2 Htr2]. unfold fs_of, trace_of in *.
  destruct (k a fs) as [[t2 fs2] r]; simpl in *.
  split; [done | by apply Forall_app].
Qed.

Lemma confined_weaken {A} (ok ok' : event -> Prop) (m : io A) :
  (forall e, ok e -> ok' e) -> confined ok m -> confined ok' m.
Proof.
  intros Himp Hm fs. destruct (Hm fs) as [Hfs Htr].
  split; [done | eapply Forall_impl; eauto].
Qed.

Lemma confined_stat ok p : ok (SysStat p) -> confined ok (stat p).
Proof.
  intros Hok fs. unfold stat, fs_of, trace_of.
  destruct (fs !! p) as [[w | c m | c m] |]; simpl; split; auto.
Qed.

Lemma confined_open ok p : ok (SysOpen p) -> confined ok (open_rb p).
Proof.
  intros Hok fs. unfold open_rb, fs_of, trace_of.
  destruct (fs !! p) as [[w | c m | c m] |]; simpl; split; auto.
Qed.

Lemma confined_isfile ok p : ok (SysStat p) -> confined ok (path_isfile p).
Proof. intros Hok fs. split; [reflexivity | by repeat constructor]. Qed.

(** *** Directory creation *)

Lemma dirname_child (cwd : Os.path) (name : string) : dirname (cwd ++ [name]) = cwd.
Proof. unfold dirname. apply removelast_last. Qed.

Lemma child_neq_parent (cwd : Os.path) (name : string) : cwd ++ [name] ≠ cwd.
Proof.
  intros H. apply (f_equal length) in H. rewrite length_app in H. simpl in H. lia.
Qed.

Lemma makedirs_existing cwd name fs :
  is_dir fs (cwd ++ [name]) = true ->
  makedirs cwd name true fs =
    ([SysMkdir (cwd ++ [name]); SysStat (cwd ++ [name])], fs, inr tt).
Proof.
  intros H. unfold makedirs, try_except, mkdir.
  unfold is_dir in H. destruct (fs !! (cwd ++ [name])) as [[w | c m | c m] |] eqn:E; try done.
  rewrite bind_run. unfold path_isdir, is_dir. rewrite E. reflexivity.
Qed.

Lemma makedirs_fresh cwd name fs :
  fs !! (cwd ++ [name]) = None -> fs !! cwd = Some (Dir true) ->
  makedirs cwd name true fs =
    ([SysMkdir (cwd ++ [name])], <[cwd ++ [name] := Dir true]> fs, inr tt).
Proof.
  intros H1 H2. unfold makedirs, try_except, mkdir.
  rewrite H1, dirname_child, H2. reflexivity.
Qed.

(** Whatever happens, [makedirs] only ever adds a directory entry at a
    place that had none. *)
Lemma makedirs_cases cwd name fs :
  (is_dir fs (cwd ++ [name]) = true /\
   makedirs cwd name true fs =
     ([SysMkdir (cwd ++ [name]); SysStat (cwd ++ [name])], fs, inr tt))
  \/ (fs !! (cwd ++ [name]) = None /\ fs !! cwd = Some (Dir true) /\
      makedirs cwd name true fs =
        ([SysMkdir (cwd ++ [name])], <[cwd ++ [name] := Dir true]> fs, inr tt))
  \/ (is_dir fs (cwd ++ [name]) = false /\
      exists t e, makedirs cwd name true fs = (t, fs, inl e)
                  /\ quiet t).
Proof.
  destruct (is_dir fs (cwd ++ [name])) eqn:Hd.
  { left. split; [done |]. by apply makedirs_existing. }
  right.
  destruct (fs !! (cwd ++ [name])) as [n |] eqn:E.
  - right. split; [done |].
    unfold makedirs, try_except, mkdir. rewrite E, bind_run.
    unfold path_isdir. rewrite Hd. simpl.
    eexists _, _. split; [reflexivity |]. repeat constructor.
  - destruct (fs !! cwd) as [[[|] | c m | c m] |] eqn:Ec.
    + left. split; [done |]. split; [done |]. by apply makedirs_fresh.
    + right. split; [done |].
      unfold makedirs, try_except, mkdir. rewrite E, dirname_child, Ec, bind_run.
      unfold path_isdir. rewrite Hd. simpl.
      eexists _, _. split; [reflexivity |]. repeat constructor.
    + right. split; [done |].
      unfold makedirs, try_except, mkdir. rewrite E, dirname_child, Ec, bind_run.
      unfold path_isdir. rewrite Hd. simpl.
      eexists _, _. split; [reflexivity |]. repeat constructor.
    + right. split; [done |].
      unfold makedirs, try_except, mkdir. rewrite E, dirname_child, Ec, bind_run.
      unfold path_isdir. rewrite Hd. simpl.
      eexists _, _. split; [reflexivity |]. repeat constructor.
    + right. split; [done |].
      unfold makedirs, try_except, mkdir. rewrite E, dirname_child, Ec, bind_run.
      unfold path_isdir. rewrite Hd. simpl.
      eexists _, _. split; [reflexivity |]. repeat constructor.
Qed.

Lemma extends_refl fs : extends fs fs.
Proof. by intros p _. Qed.

Lemma extends_trans fs1 fs2 fs3 : extends fs1 fs2 -> extends fs2 fs3 -> extends fs1 fs3.
Proof.
  intros H12 H23 p Hp. rewrite <- (H12 p Hp). apply H23. by rewrite (H12 p Hp).
Qed.

Lemma extends_insert (fs : filesystem) p n : fs !! p = None -> extends fs (<[p := n]> fs).
Proof.
  intros Hnone q [x Hq]. rewrite lookup_insert_ne; [done |]. congruence.
Qed.

Lemma extends_is_dir fs fs' p : extends fs fs' -> is_dir fs p = true -> is_dir fs' p = true.
Proof.
  intros Hext Hd. unfold is_dir in *.
  destruct (fs !! p) as [n |] eqn:E; [| done].
  rewrite (Hext p); [by rewrite E | by rewrite E].
Qed.

(** One [makedirs] call, whatever the file system. *)
Lemma makedirs_step cwd name fs t fs' r :
  makedirs cwd name true fs = (t, fs', r) ->
  extends fs fs' /\ quiet t
  /\ (forall u, r = inr u -> is_dir fs' (cwd ++ [name]) = true)
  /\ (forall e, r = inl e -> fs' = fs /\ is_dir fs (cwd ++ [name]) = false).
Proof.
  intros Hrun.
  destruct (makedirs_cases cwd name fs)
    as [[Hd Heq] | [[Hnone [Hcwd Heq]] | [Hd (t' & e' & Heq & Hq)]]];
    rewrite Heq in Hrun; injection Hrun as <- <- <-.
  - split; [apply extends_refl |]. split; [by repeat constructor |].
    split; [done | done].
  - split; [by apply extends_insert |]. split; [by repeat constructor |].
    split; [| done]. intros _ _. unfold is_dir. by rewrite lookup_insert_eq.
  - split; [apply extends_refl |]. split; [done |].
    split; [done |]. intros e _. done.
Qed.

Lemma quiet_app t1 t2 : quiet t1 -> quiet t2 -> quiet (t1 ++ t2).
Proof. apply Forall_app_2. Qed.

Lemma makedirs_all_step cwd names : forall fs t fs' r,
  makedirs_all cwd names fs = (t, fs', r) ->
  extends fs fs' /\ quiet t
  /\ (forall u, r = inr u -> forall d, d ∈ names -> is_dir fs' (cwd ++ [d]) = true).
Proof.
  induction names as [| name rest IH]; intros fs t fs' r Hrun.
  - injection Hrun as <- <- <-.
    split; [apply extends_refl |]. split; [constructor |].
    intros _ _ d Hd. by apply elem_of_nil in Hd.
  - simpl in Hrun. rewrite bind_run in Hrun.
    destruct (makedirs cwd name true fs) as [[t1 fs1] [e | []]] eqn:E1.
    + injection Hrun as <- <- <-.
      destruct (makedirs_step _ _ _ _ _ _ E1) as (Hext & Hq & _ & _).
      split; [done |]. split; [done |]. intros u Hu. done.
    + destruct (makedirs_all cwd rest fs1) as [[t2 fs2] r2] eqn:E2.
      injection Hrun as <- <- <-.
      destruct (makedirs_step _ _ _ _ _ _ E1) as (Hext1 & Hq1 & Hd1 & _).
      destruct (IH _ _ _ _ E2) as (Hext2 & Hq2 & Hd2).
      split; [by eapply extends_trans |]. split; [by apply quiet_app |].
      intros u Hu d Hd. apply elem_of_cons in Hd as [-> | Hd].
      * eapply extends_is_dir; [done |]. by eapply Hd1.
      * by eapply Hd2.
Qed.

Lemma makedirs_all_existing cwd names : forall fs,
  (forall d, d ∈ names -> is_dir fs (cwd ++ [d]) = true) ->
  exists t, makedirs_all cwd names fs = (t, fs, inr tt).
Proof.
  induction names as [| name rest IH]; intros fs Hall.
  - by exists [].
  - simpl. rewrite bind_run.
    rewrite makedirs_existing by (apply Hall; left).
    destruct (IH fs) as [t Ht]; [intros d Hd; apply Hall; by right |].
    rewrite Ht. by eexists.
Qed.

Lemma makedirs_all_ok cwd names : forall fs,
  (forall d, d ∈ names ->
     is_dir fs (cwd ++ [d]) = true
     \/ (fs !! (cwd ++ [d]) = None /\ fs !! cwd = Some (Dir true))) ->
  exists t fs', makedirs_all cwd names fs = (t, fs', inr tt).
Proof.
  induction names as [| name rest IH]; intros fs Hall.
  - by exists [], fs.
  - simpl. rewrite bind_run.
    destruct (makedirs cwd name true fs) as [[t1 fs1] r1] eqn:E1.
    destruct (makedirs_step _ _ _ _ _ _ E1) as (Hext1 & _ & Hok & Herr).
    destruct r1 as [e | []].
    + exfalso. destruct (Herr e eq_refl) as [-> Hnd].
      destruct (Hall name) as [Hd | [Hnone Hcwd]]; [by left | congruence |].
      rewrite (makedirs_fresh _ _ _ Hnone Hcwd) in E1. done.
    + destruct (IH fs1) as (t2 & fs2 & E2).
      { intros d Hd. destruct (Hall d) as [Hdir | [Hnone Hcwd]]; [by right | |].
        - left. by eapply extends_is_dir.
        - destruct (makedirs_cases cwd name fs)
            as [[_ Heq] | [[Hn [_ Heq]] | [_ (t' & e' & Heq & _)]]];
            rewrite Heq in E1; [| | discriminate E1]; injection E1 as <- <-.
          + right. done.
          + destruct (decide (name = d)) as [-> | Hne].
            * left. unfold is_dir. by rewrite lookup_insert_eq.
            * right. rewrite !lookup_insert_ne; [done | |].
              -- apply child_neq_parent.
              -- intros Heq'. apply app_inj_tail in Heq' as [_ ?]. done. }
      rewrite E2. by eexists _, _.
Qed.

Lemma bind_ret_unit (m : io unit) fs : (m ≫= (fun _ => ret tt)) fs = m fs.
Proof.
  rewrite bind_run. destruct (m fs) as [[t fs1] [e | []]]; [done |].
  simpl. by rewrite app_nil_r.
Qed.

Lemma provision_loop proc fs :
  provision proc fs = makedirs_all (cwd proc) directories fs.
Proof.
  unfold provision, directories. simpl.
  rewrite !bind_run.
  destruct (makedirs (cwd proc) UPLOAD_FOLDER true fs) as [[t1 fs1] [e | []]]; [done |].
  rewrite !bind_run.
  destruct (makedirs (cwd proc) PROCESSED_FOLDER true fs1) as [[t2 fs2] [e | []]]; [done |].
  rewrite !bind_run.
  destruct (makedirs (cwd proc) TEMPLATES_FOLDER true fs2) as [[t3 fs3] [e | []]]; [done |].
  rewrite bind_ret_unit. done.
Qed.

(** *** Sending files *)

Lemma send_file_confined ok types p x max_age req :
  ok (SysStat p) -> ok (SysOpen p) -> confined ok (send_file types p x max_age req).
Proof.
  intros Hs Ho. unfold send_file.
  apply confined_bind; [by apply confined_stat |]. intros [size mtime].
  destruct (guess_type types (default "" (last p))) as [guessed encoding].
  apply confined_bind.
  - destruct x; [apply confined_ret | by apply confined_open].
  - intros content. apply confined_bind; [apply confined_lift |].
    intros rv. apply confined_ret.
Qed.

Lemma send_file_present (types : gmap string string) (p : Os.path)
    (max_age : option Z) (req : Request) (fs : filesystem)
    (content : list Byte.byte) (mtime : Z) :
  fs !! p = Some (File content mtime) ->
  send_file types p false max_age req fs =
    ([SysStat p; SysOpen p], fs,
     make_conditional req (file_etag p content mtime) mtime
       (Z.of_nat (length content)) (file_response types p content mtime max_age)).
Proof.
  intros Hp. unfold send_file. rewrite bind_run. unfold stat at 1. rewrite Hp.
  unfold file_response.
  destruct (guess_type types (default "" (last p))) as [guessed encoding].
  rewrite bind_run. unfold open_rb at 1. rewrite Hp.
  rewrite bind_run. unfold lift at 1. cbn [andb fst snd app].
  fold (file_etag p content mtime).
  by destruct (make_conditional req _ mtime _ _).
Qed.

(** A regular file that the process may not read passes the stat and
    fails at [open]. *)
Lemma send_file_unreadable (types : gmap string string) (p : Os.path)
    (max_age : option Z) (req : Request) (fs : filesystem)
    (content : list Byte.byte) (mtime : Z) :
  fs !! p = Some (Unreadable content mtime) ->
  send_file types p false max_age req fs = ([SysStat p; SysOpen p], fs, inl PermissionError).
Proof.
  intros Hp. unfold send_file. rewrite bind_run. unfold stat at 1. rewrite Hp.
  destruct (guess_type types (default "" (last p))) as [guessed encoding].
  rewrite bind_run. unfold open_rb at 1. by rewrite Hp.
Qed.

Lemma send_from_directory_confined ok types root directory name x max_age req :
  (forall s, safe_join directory name = Some s ->
     ok (SysStat (resolve root s)) /\ ok (SysOpen (resolve root s))) ->
  confined ok (Werkzeug.send_from_directory types root directory name x max_age req).
Proof.
  intros Hok. unfold Werkzeug.send_from_directory.
  destruct (safe_join directory name) as [s |]; [| apply confined_raise].
  destruct (Hok s eq_refl) as [Hs Ho].
  apply confined_bind; [by apply confined_isfile |]. intros [|]; simpl.
  - by apply send_file_confined.
  - apply confined_raise.
Qed.

Lemma resolve_index root :
  resolve root "templates/index.html" = root ++ ["templates"; "index.html"].
Proof. unfold resolve. simpl. unfold resolve_step. simpl. by rewrite <- app_assoc. Qed.

Lemma index_confined c args req :
  confined (touches (root_path c ++ [TEMPLATES_FOLDER; "index.html"])) (index c args req).
Proof.
  unfold index, send_from_directory.
  apply send_from_directory_confined. intros s Hs.
  injection Hs as <-. rewrite resolve_index. split; [by left | by right].
Qed.

Lemma index_absent (c : Context) (args : list (string * string)) (req : Request)
    (fs : filesystem) :
  is_file fs (root_path c ++ [TEMPLATES_FOLDER; "index.html"]) = false ->
  index c args req fs =
    ([SysStat (root_path c ++ [TEMPLATES_FOLDER; "index.html"])], fs, inl NotFound).
Proof.
  intros Hf. unfold index, send_from_directory, Werkzeug.send_from_directory.
  change (safe_join TEMPLATES_FOLDER "index.html") with (Some "templates/index.html").
  cbv iota beta. rewrite resolve_index, bind_run. unfold path_isfile, TEMPLATES_FOLDER in *.
  rewrite Hf. reflexivity.
Qed.

Lemma index_present (c : Context) (args : list (string * string)) (req : Request)
    (fs : filesystem) (content : list Byte.byte) (mtime : Z) :
  config_get c "USE_X_SENDFILE" = PyBool false ->
  fs !! (root_path c ++ [TEMPLATES_FOLDER; "index.html"]) = Some (File content mtime) ->
  index c args req fs =
    (let p := root_path c ++ [TEMPLATES_FOLDER; "index.html"] in
     ([SysStat p; SysStat p; SysOpen p], fs,
      make_conditional req (file_etag p content mtime) mtime
        (Z.of_nat (length content))
        (file_response (types_db c) p content mtime (get_send_file_max_age c)))).
Proof.
  intros Hx Hp. unfold index, send_from_directory, Werkzeug.send_from_directory.
  change (safe_join TEMPLATES_FOLDER "index.html") with (Some "templates/index.html").
  cbv iota beta. rewrite resolve_index, bind_run. unfold path_isfile, is_file, TEMPLATES_FOLDER in *.
  rewrite Hp, Hx.
  change (negb true) with false. change (truthy (PyBool false)) with false.
  cbv iota. rewrite (send_file_present _ _ _ _ _ _ _ Hp). reflexivity.
Qed.

Lemma index_unreadable (c : Context) (args : list (string * string)) (req : Request)
    (fs : filesystem) (content : list Byte.byte) (mtime : Z) :
  config_get c "USE_X_SENDFILE" = PyBool false ->
  fs !! (root_path c ++ [TEMPLATES_FOLDER; "index.html"])
    = Some (Unreadable content mtime) ->
  index c args req fs =
    (let p := root_path c ++ [TEMPLATES_FOLDER; "index.html"] in
     ([SysStat p; SysStat p; SysOpen p], fs, inl PermissionError)).
Proof.
  intros Hx Hp. unfold index, send_from_directory, Werkzeug.send_from_directory.
  change (safe_join TEMPLATES_FOLDER "index.html") with (Some "templates/index.html").
  cbv iota beta. rewrite resolve_index, bind_run. unfold path_isfile, is_file, TEMPLATES_FOLDER in *.
  rewrite Hp, Hx.
  change (negb true) with false. change (truthy (PyBool false)) with false.
  cbv iota. rewrite (send_file_unreadable _ _ _ _ _ _ _ Hp). reflexivity.
Qed.

(** *** Dispatch *)

Lemma assoc_elem {A} k (l : list (string * A)) v : assoc k l = Some v -> (k, v) ∈ l.
Proof.
  induction l as [| [k' v'] l IH]; simpl; [done |].
  case_bool_decide as Hk.
  - intros [= <-]. subst. by left.
  - intros H. right. by apply IH.
Qed.

Lemma dispatch_confined ok a req :
  views_confined ok a -> confined ok (dispatch_request a req).
Proof.
  intros Hv. unfold dispatch_request.
  destruct (url_match (url_map a) req) as [e | [r args]]; [apply confined_raise |].
  case_bool_decide; [apply confined_ret |].
  destruct (assoc (endpoint r) (view_functions a)) as [view |] eqn:E;
    [| apply confined_raise].
  eapply Hv. by apply assoc_elem in E.
Qed.

(** [wsgi_app] answers every request: whatever [dispatch_request]
    raises is turned into a response. *)
Lemma wsgi_app_run a req fs :
  wsgi_app a req fs =
  match dispatch_request a req fs with
  | (t, fs1, r) => (t, fs1, inr (finalize a req r))
  end.
Proof.
  unfold wsgi_app, full_dispatch_request, finalize. rewrite bind_run.
  unfold try_except, handle_user_exception.
  destruct (dispatch_request a req fs) as [[t fs1] [e | rv]]; simpl.
  - destruct (is_http_exception e && negb (trap_http_exception (ctx a) e)); simpl;
      by rewrite !app_nil_r.
  - by rewrite app_nil_r.
Qed.

Lemma wsgi_app_confined ok a req :
  views_confined ok a -> confined ok (wsgi_app a req).
Proof.
  intros Hv fs. rewrite wsgi_app_run.
  destruct (dispatch_confined ok a req Hv fs) as [Hfs Ht].
  destruct (dispatch_request a req fs) as [[t fs1] r]. done.
Qed.

Lemma wsgi_app_respond a req fs :
  wsgi_app a req fs =
    (trace_of (wsgi_app a req fs), fs_of (wsgi_app a req fs), inr (respond a fs req)).
Proof.
  unfold respond. rewrite wsgi_app_run.
  by destruct (dispatch_request a req fs) as [[t fs1] r].
Qed.

Lemma serve_forever_run ok a incoming :
  views_confined ok a -> (forall s, ok (Respond s)) ->
  forall fs, exists t,
    serve_forever a incoming fs = (t, fs, inr (map (respond a fs) incoming))
    /\ Forall ok t.
Proof.
  intros Hv Hr. induction incoming as [| req rest IH]; intros fs.
  - exists []. by split.
  - simpl. rewrite bind_run, wsgi_app_respond.
    destruct (wsgi_app_confined ok a req Hv fs) as [-> Ht].
    rewrite bind_run. unfold emit at 1. rewrite bind_run.
    destruct (IH fs) as (t2 & -> & Ht2).
    eexists. split; [reflexivity |].
    apply Forall_app_2; [done |]. rewrite app_nil_r. simpl.
    constructor; [apply Hr | done].
Qed.

Lemma run_run ok a debug incoming :
  views_confined ok (config_set a "DEBUG" (PyBool debug)) ->
  (forall s, ok (Respond s)) ->
  forall fs, exists t,
    run a debug incoming fs =
      (Listen :: t, fs,
       inr (map (respond (config_set a "DEBUG" (PyBool debug)) fs) incoming))
    /\ Forall ok t.
Proof.
  intros Hv Hr fs. unfold run. rewrite bind_run. unfold emit at 1.
  destruct (serve_forever_run ok _ incoming Hv Hr fs) as (t & -> & Ht).
  by exists t.
Qed.

(** *** The application of app.py *)

Lemma served_url_map proc :
  url_map (served_app proc) =
    [{| rule := "/static/<path:filename>"; endpoint := "static";
        methods := ["GET"; "HEAD"; "OPTIONS"] |};
     {| rule := "/"; endpoint := "index"; methods := ["GET"; "HEAD"; "OPTIONS"] |}].
Proof. reflexivity. Qed.

Lemma served_x_sendfile proc :
  config_get (ctx (served_app proc)) "USE_X_SENDFILE" = PyBool false.
Proof. reflexivity. Qed.

Lemma served_trap proc e : trap_http_exception (ctx (served_app proc)) e = false.
Proof. reflexivity. Qed.

Lemma send_static_file_confined c args req : confined reads (send_static_file c args req).
Proof.
  unfold send_static_file.
  destruct (static_folder c) as [folder |]; [| apply confined_raise].
  destruct (assoc "filename" args) as [filename |]; [| apply confined_raise].
  unfold send_from_directory. apply send_from_directory_confined.
  intros s _. by split.
Qed.

Lemma views_confined_reads a :
  view_functions a = [("index", index); ("static", send_static_file)] ->
  views_confined reads a.
Proof.
  intros Hv name view Hin args req. rewrite Hv in Hin.
  apply elem_of_cons in Hin as [[= -> ->] | Hin].
  { eapply confined_weaken; [| apply index_confined]. by intros e [-> | ->]. }
  apply elem_of_cons in Hin as [[= -> ->] | Hin].
  { apply send_static_file_confined. }
  by apply elem_of_nil in Hin.
Qed.

Lemma served_views_confined proc : views_confined reads (served_app proc).
Proof. by apply views_confined_reads. Qed.

Lemma reads_no_write e : reads e -> no_write e.
Proof. by destruct e. Qed.

Lemma served_views_no_write proc : views_confined no_write (served_app proc).
Proof.
  intros name view Hin args req.
  eapply confined_weaken; [apply reads_no_write |].
  by eapply served_views_confined.
Qed.

(** The run of the file in one equation. *)
Lemma main_run proc incoming fs :
  main proc incoming fs =
  match provision proc fs with
  | (t1, fs1, inl e) => (t1, fs1, Crashed e)
  | (t1, fs1, inr _) =>
      if bool_decide (__name__ proc = "__main__") then
        (t1 ++ Listen :: trace_of (serve_forever (served_app proc) incoming fs1), fs1,
         Served (map (respond (served_app proc) fs1) incoming))
      else (t1, fs1, Imported (app proc))
  end.
Proof.
  unfold main, main_from.
  destruct (provision proc fs) as [[t1 fs1] [e | u]]; [done |].
  case_bool_decide; [| done].
  destruct (run_run no_write (app proc) true incoming) with (fs := fs1)
    as (t & Hrun & _).
  { apply served_views_no_write. }
  { done. }
  change (route (app0 proc) "/" "index" index) with (app proc).
  rewrite Hrun.
  destruct (serve_forever_run no_write (served_app proc) incoming
              (served_views_no_write proc)) with (fs := fs1) as (t' & Hs & _); [done |].
  unfold run in Hrun. rewrite bind_run in Hrun. unfold emit in Hrun.
  fold (served_app proc) in Hrun. rewrite Hs in Hrun. rewrite Hs.
  injection Hrun as <-. reflexivity.
Qed.

(** *** Claims about startup *)

(** C3, as stated, does not hold: on a file system where a regular file
    occupies the name [uploads], the provisioning step raises and the
    upload directory does not exist afterwards. *)
Lemma provision_blocked_by_file :
  ~ (forall proc fs,
       (forall d, d ∈ directories ->
          is_dir (fs_of (provision proc fs)) (cwd proc ++ [d]) = true)
       /\ result_of (provision proc (fs_of (provision proc fs))) = inr tt).
Proof.
  intros H. destruct (H Sample.proc Sample.blocked) as [Hdirs _].
  specialize (Hdirs "uploads" ltac:(by left)).
  vm_compute in Hdirs. discriminate Hdirs.
Qed.

(** C3 (amended): on every file system where each of the four names is
    already a directory, or is free in a writable working directory,
    provisioning completes without error; afterwards the four
    directories exist and every entry that existed before is unchanged;
    a second run completes without error and leaves the file system as
    the first run left it. *)
Theorem provision_idempotent proc fs :
  provisionable proc fs ->
  exists t1 t2 fs1,
    provision proc fs = (t1, fs1, inr tt)
    /\ (forall d, d ∈ directories -> is_dir fs1 (cwd proc ++ [d]) = true)
    /\ extends fs fs1
    /\ provision proc fs1 = (t2, fs1, inr tt).
Proof.
  intros Hp.
  destruct (makedirs_all_ok (cwd proc) directories fs Hp) as (t1 & fs1 & E1).
  destruct (makedirs_all_step _ _ _ _ _ _ E1) as (Hext & _ & Hdirs).
  destruct (makedirs_all_existing (cwd proc) directories fs1) as [t2 E2].
  { by apply (Hdirs tt). }
  exists t1, t2, fs1. rewrite !provision_loop.
  split; [done |]. split; [by apply (Hdirs tt) |]. done.
Qed.

Lemma provision_idempotent_witness :
  provisionable Sample.proc Sample.fresh
  /\ exists t1 t2 fs1,
       provision Sample.proc Sample.fresh = (t1, fs1, inr tt)
       /\ (forall d, d ∈ directories -> is_dir fs1 (cwd Sample.proc ++ [d]) = true)
       /\ extends Sample.fresh fs1
       /\ provision Sample.proc fs1 = (t2, fs1, inr tt).
Proof.
  assert (Hp : provisionable Sample.proc Sample.fresh).
  { intros d Hd. right. unfold directories in Hd.
    repeat (apply elem_of_cons in Hd as [-> | Hd]; [by vm_compute |]).
    by apply elem_of_nil in Hd. }
  split; [exact Hp |]. exact (provision_idempotent Sample.proc Sample.fresh Hp).
Defined.

(** C4: when one of the four directory creations fails, the run ends in
    that exception and its trace holds neither [Listen] nor a response;
    when all four succeed, the complete provisioning trace comes first,
    it holds neither [Listen] nor a response, the four directories
    exist when it ends, and everything the server does comes after it. *)
Theorem provisioning_precedes_serving proc incoming fs :
  match provision proc fs with
  | (t1, fs1, inl e) =>
      main proc incoming fs = (t1, fs1, Crashed e) /\ quiet t1
  | (t1, fs1, inr _) =>
      quiet t1
      /\ (forall d, d ∈ directories -> is_dir fs1 (cwd proc ++ [d]) = true)
      /\ fs_of (main proc incoming fs) = fs1
      /\ exists t2, trace_of (main proc incoming fs) = t1 ++ t2
                    /\ (__name__ proc = "__main__" -> exists t3, t2 = Listen :: t3)
                    /\ (__name__ proc <> "__main__" -> t2 = [])
  end.
Proof.
  rewrite main_run.
  destruct (provision proc fs) as [[t1 fs1] r] eqn:E.
  rewrite provision_loop in E.
  destruct (makedirs_all_step _ _ _ _ _ _ E) as (_ & Hq & Hdirs).
  destruct r as [e | u]; [done |].
  split; [done |]. split; [by apply (Hdirs u) |].
  case_bool_decide as Hn.
  - split; [done |]. eexists. split; [reflexivity |]. split; [by eexists | done].
  - split; [done |]. exists []. split; [by rewrite app_nil_r |]. done.
Qed.

(** *** Claims about the index route *)

Lemma url_match_index proc req :
  method req = "GET" -> path req = "/" ->
  url_match (url_map (served_app proc)) req =
    inr ({| rule := "/"; endpoint := "index"; methods := ["GET"; "HEAD"; "OPTIONS"] |}, []).
Proof.
  intros Hm Hp. rewrite served_url_map. unfold url_match. rewrite Hm, Hp. reflexivity.
Qed.

Lemma dispatch_index proc req fs :
  method req = "GET" -> path req = "/" ->
  dispatch_request (served_app proc) req fs = index (ctx (served_app proc)) [] req fs.
Proof.
  intros Hm Hp. unfold dispatch_request.
  rewrite (url_match_index proc req Hm Hp), Hm. reflexivity.
Qed.

Lemma respond_index proc req fs :
  method req = "GET" -> path req = "/" ->
  wsgi_app (served_app proc) req fs =
    (trace_of (index (ctx (served_app proc)) [] req fs),
     fs,
     inr (finalize (served_app proc) req
            (result_of (index (ctx (served_app proc)) [] req fs)))).
Proof.
  intros Hm Hp. rewrite wsgi_app_run, dispatch_index by done.
  destruct (index_confined (ctx (served_app proc)) [] req fs) as [Hfs _].
  unfold fs_of, trace_of, result_of in *.
  destruct (index (ctx (served_app proc)) [] req fs) as [[t fs1] r]. simpl in *.
  by subst.
Qed.


(** The three ways the view can go: no regular file, a file the process
    may read, a file it may not read. *)
Lemma index_served_cases (proc : Process) (args : list (string * string))
    (req : Request) (fs : filesystem) :
  (is_file fs (index_path proc) = false
   /\ index (ctx (served_app proc)) args req fs
      = ([SysStat (index_path proc)], fs, inl NotFound))
  \/ (exists content mtime,
        fs !! index_path proc = Some (File content mtime)
        /\ index (ctx (served_app proc)) args req fs
           = ([SysStat (index_path proc); SysStat (index_path proc);
               SysOpen (index_path proc)], fs,
              make_conditional req (file_etag (index_path proc) content mtime) mtime
                (Z.of_nat (length content))
                (file_response (mime_types proc) (index_path proc) content mtime None)))
  \/ (exists content mtime,
        fs !! index_path proc = Some (Unreadable content mtime)
        /\ index (ctx (served_app proc)) args req fs
           = ([SysStat (index_path proc); SysStat (index_path proc);
               SysOpen (index_path proc)], fs, inl PermissionError)).
Proof.
  destruct (is_file fs (index_path proc)) eqn:Hf.
  - right. unfold is_file in Hf.
    destruct (fs !! index_path proc) as [[w | content mtime | content mtime] |] eqn:E;
      try done.
    + left. exists content, mtime. split; [done |].
      exact (index_present (ctx (served_app proc)) args req fs content mtime
               (served_x_sendfile proc) E).
    + right. exists content, mtime. split; [done |].
      exact (index_unreadable (ctx (served_app proc)) args req fs content mtime
               (served_x_sendfile proc) E).
  - left. split; [done |].
    exact (index_absent (ctx (served_app proc)) args req fs Hf).
Qed.






Lemma finalize_error_status proc req e :
  status_code (finalize (served_app proc) req (inl e))
  = if is_http_exception e then http_code e else 500.
Proof. unfold finalize. rewrite served_trap. by destruct e. Qed.

Lemma get_wsgi_response_plain req rv :
  method req = "GET" -> 205 <= status_code rv < 300 \/ status_code rv = 200 ->
  get_wsgi_response req rv = rv.
Proof.
  intros Hm Hs. unfold get_wsgi_response. rewrite Hm.
  destruct rv as [s hs b]. simpl in *.
  replace (s =? 304) with false by lia.
  replace (s =? 204) with false by lia.
  replace ((100 <=? s) && (s <? 200)) with false by lia.
  reflexivity.
Qed.












Lemma before_semicolon_html :
  before_semicolon (get_content_type "text/html" "utf-8") = "text/html".
Proof. reflexivity. Qed.



(** C7: handling a request leaves the file system as it was and
    performs only stat and open-for-reading calls; in a whole run the
    provisioning trace comes first, nothing after it is a write, and the
    file system at the end is the one that provisioning left. *)
Theorem request_handling_is_read_only (proc : Process) :
  (forall req fs,
     fs_of (wsgi_app (served_app proc) req fs) = fs
     /\ Forall reads (trace_of (wsgi_app (served_app proc) req fs)))
  /\ (forall incoming fs, exists t2,
        trace_of (main proc incoming fs) = trace_of (provision proc fs) ++ t2
        /\ Forall no_write t2
        /\ fs_of (main proc incoming fs) = fs_of (provision proc fs)).
Proof.
  split.
  - intros req fs. apply wsgi_app_confined, served_views_confined.
  - intros incoming fs. rewrite main_run.
    destruct (provision proc fs) as [[t1 fs1] [e | u]].
    + exists []. by rewrite app_nil_r.
    + case_bool_decide.
      * destruct (serve_forever_run no_write (served_app proc) incoming
                    (served_views_no_write proc)) with (fs := fs1) as (t' & Hs & Ht');
          [done |].
        rewrite Hs. eexists. split; [reflexivity |]. split; [| done].
        constructor; done.
      * exists []. by rewrite app_nil_r.
Qed.

(** C9: the view performs its file-system calls on one path only,
    [index.html] inside the [templates] directory under the application
    root; the calls it performs are the same for every request and every
    view argument; and the body it returns is the content of that file
    or a slice of it. *)
Theorem index_reads_fixed_file (proc : Process) :
  (forall args req fs,
     fs_of (index (ctx (served_app proc)) args req fs) = fs
     /\ Forall (touches ((module_dir proc ++ [TEMPLATES_FOLDER]) ++ ["index.html"]))
          (trace_of (index (ctx (served_app proc)) args req fs)))
  /\ (forall args1 args2 req1 req2 fs,
        trace_of (index (ctx (served_app proc)) args1 req1 fs)
        = trace_of (index (ctx (served_app proc)) args2 req2 fs))
  /\ (forall args req fs rv,
        result_of (index (ctx (served_app proc)) args req fs) = inr rv ->
        exists content mtime,
          fs !! ((module_dir proc ++ [TEMPLATES_FOLDER]) ++ ["index.html"])
            = Some (File content mtime)
          /\ (body rv = content \/ exists start stop, body rv = slice start stop content)).
Proof.
  assert (Hpath : (module_dir proc ++ [TEMPLATES_FOLDER]) ++ ["index.html"]
                  = index_path proc).
  { unfold index_path. by rewrite <- app_assoc. }
  rewrite Hpath. split; [| split].
  - intros args req fs. apply (index_confined (ctx (served_app proc)) args req fs).
  - intros args1 args2 req1 req2 fs.
    destruct (index_served_cases proc args1 req1 fs)
      as [[Hf Hi1] | [(content & mtime & Hf & Hi1) | (content & mtime & Hf & Hi1)]];
      rewrite Hi1.
    + by rewrite (index_absent (ctx (served_app proc)) args2 req2 fs Hf).
    + by rewrite (index_present (ctx (served_app proc)) args2 req2 fs content mtime
                    (served_x_sendfile proc) Hf).
    + by rewrite (index_unreadable (ctx (served_app proc)) args2 req2 fs content mtime
                    (served_x_sendfile proc) Hf).
  - intros args req fs rv.
    destruct (index_served_cases proc args req fs)
      as [[Hf Hi] | [(content & mtime & Hf & Hi) | (content & mtime & Hf & Hi)]];
      rewrite Hi; unfold result_of; cbn [snd]; [done | | done].
    intros Hrv. exists content, mtime. split; [done |].
    unfold make_conditional in Hrv.
    destruct (bool_decide (method req = "GET") || bool_decide (method req = "HEAD")).
    2: { injection Hrv as <-. by left. }
    cbv zeta in Hrv.
    destruct (process_range_request req _ mtime _) as [e | [[start stop] |]];
      [discriminate Hrv | |].
    + injection Hrv as <-. right. by exists start, stop.
    + destruct (negb (is_resource_modified req _ mtime true));
        injection Hrv as <-; by left.
Qed.

(** *** Routing *)

Lemma starts_with_slash p :
  startswith p "/" = true -> exists rest, p = String "/" rest.
Proof.
  destruct p as [| a rest]; [done |]. unfold startswith. simpl.
  destruct (Ascii.eqb_spec "/" a) as [<- | ?]; [by eexists | done].
Qed.

Lemma strip_prefix_cons a p b s :
  strip_prefix (String a p) (String b s)
  = if Ascii.eqb a b then strip_prefix p s else None.
Proof. reflexivity. Qed.

Lemma startswith_cons a p b s :
  startswith (String b s) (String a p) = Ascii.eqb a b && startswith s p.
Proof. unfold startswith. rewrite strip_prefix_cons. by destruct (Ascii.eqb a b). Qed.

Lemma startswith_nil s : startswith s "" = true.
Proof. by destruct s. Qed.

Lemma lstrip_no_slash s : startswith (lstrip_slash s) "/" = false.
Proof.
  induction s as [| a s IH]; [done |]. cbn [lstrip_slash].
  destruct (is_slash a) eqn:Ha; [done |].
  rewrite startswith_cons. unfold is_slash in Ha. rewrite Ascii.eqb_sym in Ha.
  by rewrite Ha.
Qed.

Lemma path_part_cons p : p <> "" -> path_part p = String "/" (lstrip_slash p).
Proof. intros Hp. unfold path_part. by rewrite bool_decide_false. Qed.

(** Merging slashes keeps the first character, and keeps the text
    empty or not. *)
Lemma merge_slashes_step a b s :
  merge_slashes (String a (String b s)) =
  if is_slash a && is_slash b then merge_slashes (String b s)
  else String a (merge_slashes (String b s)).
Proof. reflexivity. Qed.

Lemma merge_slashes_head a s :
  exists s', merge_slashes (String a s) = String a s'.
Proof.
  revert a. induction s as [| b rest IH]; intros a; [by eexists |].
  rewrite merge_slashes_step.
  destruct (is_slash a && is_slash b) eqn:E; [| by eexists].
  apply andb_true_iff in E as [Ha Hb]. unfold is_slash in *.
  apply Ascii.eqb_eq in Ha as ->. apply Ascii.eqb_eq in Hb as ->. apply IH.
Qed.

Lemma merge_slashes_cons a s :
  is_slash a = false -> merge_slashes (String a s) = String a (merge_slashes s).
Proof.
  intros Ha. destruct s as [| b rest]; [done |].
  by rewrite merge_slashes_step, Ha.
Qed.

(** A slash-free word followed by a slash heads the merged text only if
    it heads the text. *)
Lemma merge_slashes_prefix w : no_slash w = true ->
  forall s, startswith (merge_slashes s) (w +:+ "/") = true ->
            startswith s (w +:+ "/") = true.
Proof.
  induction w as [| c w IH]; intros Hw s Hs.
  - rewrite append_nil in *. destruct s as [| a s]; [done |].
    destruct (merge_slashes_head a s) as [s' Hm]. rewrite Hm in Hs.
    rewrite startswith_cons, startswith_nil in *.
    apply andb_true_iff in Hs as [Ha _]. by rewrite Ha.
  - cbn [no_slash] in Hw. apply andb_true_iff in Hw as [Hc Hw].
    apply negb_true_iff in Hc. rewrite append_cons in *.
    destruct s as [| a s]; [done |].
    destruct (is_slash a) eqn:Ha.
    + destruct (merge_slashes_head a s) as [s' Hm]. rewrite Hm in Hs.
      rewrite startswith_cons in Hs. apply andb_true_iff in Hs as [Hca _].
      apply Ascii.eqb_eq in Hca as ->. congruence.
    + rewrite merge_slashes_cons in Hs by done. rewrite startswith_cons in *.
      apply andb_true_iff in Hs as [Hca Hs]. rewrite Hca. by apply IH.
Qed.

Lemma merge_slashes_routed r :
  r <> "" -> startswith r "/" = false -> startswith r "static/" = false ->
  exists m, merge_slashes (String "/" r) = String "/" m
            /\ m <> "" /\ startswith m "static/" = false.
Proof.
  intros Hne Hs Hst. destruct r as [| b r']; [done |].
  rewrite startswith_cons, startswith_nil, andb_true_r in Hs.
  assert (Hb : is_slash b = false) by (unfold is_slash; by rewrite Ascii.eqb_sym).
  exists (merge_slashes (String b r')). split; [| split].
  - cbn [merge_slashes]. rewrite Hb. by rewrite andb_false_r.
  - by rewrite merge_slashes_cons.
  - destruct (startswith (merge_slashes (String b r')) "static/") eqn:E; [| done].
    apply (merge_slashes_prefix "static" eq_refl) in E.
    change ("static" +:+ "/") with "static/" in E. congruence.
Qed.

Lemma match_rule_static_miss p m :
  startswith p "/static/" = false ->
  match_rule {| rule := "/static/<path:filename>"; endpoint := "static"; methods := m |} p
  = Miss.
Proof.
  intros Hst. unfold match_rule, startswith in *. cbn [rule].
  change (parse_rule "/static/<path:filename>") with (PathSuffix "/static/" "filename").
  cbv iota beta. by destruct (strip_prefix "/static/" p).
Qed.

Lemma match_rule_index_miss p m :
  startswith p "/" = true -> p <> "/" ->
  match_rule {| rule := "/"; endpoint := "index"; methods := m |} p = Miss.
Proof.
  intros Hs Hne. unfold match_rule. cbn [rule].
  change (parse_rule "/") with (Exact "/"). cbv iota beta.
  rewrite bool_decide_false by (intros Heq; by apply Hne).
  rewrite bool_decide_false; [done |].
  destruct (starts_with_slash p Hs) as [rest ->].
  destruct rest; cbn; discriminate.
Qed.

Lemma match_rules_unregistered proc m p have :
  startswith p "/" = true -> p <> "/" -> startswith p "/static/" = false ->
  match_rules (url_map (served_app proc)) m p have = NotMatched have.
Proof.
  intros Hs Hne Hst. rewrite served_url_map. unfold match_rules.
  by rewrite match_rule_static_miss, match_rule_index_miss.
Qed.

Lemma match_rules_routed proc m r have :
  r <> "" -> startswith r "static/" = false ->
  match_rules (url_map (served_app proc)) m (String "/" r) have = NotMatched have.
Proof.
  intros Hne Hst. apply match_rules_unregistered.
  - reflexivity.
  - congruence.
  - by rewrite startswith_cons.
Qed.

Lemma url_match_unregistered proc req :
  path req <> "" -> path_part (path req) <> "/" ->
  startswith (path_part (path req)) "/static/" = false ->
  url_match (url_map (served_app proc)) req = inl NotFound.
Proof.
  intros Hp Hne Hst. unfold url_match.
  rewrite path_part_cons in * by done.
  assert (Hr : lstrip_slash (path req) <> "") by congruence.
  rewrite startswith_cons in Hst. cbn [andb] in Hst.
  change (Ascii.eqb "/" "/") with true in Hst. cbn [andb] in Hst.
  destruct (merge_slashes_routed _ Hr (lstrip_no_slash _) Hst) as (m & -> & Hm & Hmst).
  by rewrite !match_rules_routed.
Qed.

(** C5, as stated, does not hold: [GET /static/app.css] is answered
    with status 200 when the static folder holds [app.css]. *)
Lemma static_file_is_served :
  ~ (forall proc fs req,
       path req <> "/" -> status_code (respond (served_app proc) fs req) = 404).
Proof.
  intros H.
  specialize (H Sample.proc Sample.site (Sample.get "/static/app.css") ltac:(done)).
  vm_compute in H. discriminate H.
Qed.

(** C5 (amended): the URL map holds two rules, [/] and the
    [/static/<path:filename>] rule that the Flask constructor adds; a
    request whose path is not empty and, with its leading slashes
    collapsed into one as the router sees it, is not [/] and does not
    begin with [/static/], is answered with status 404, whatever its
    method, without any file-system call. *)
Theorem unregistered_path_is_not_found (proc : Process) (fs : filesystem)
    (req : Request) :
  path req <> "" -> path_part (path req) <> "/" ->
  startswith (path_part (path req)) "/static/" = false ->
  status_code (respond (served_app proc) fs req) = 404
  /\ wsgi_app (served_app proc) req fs = ([], fs, inr (respond (served_app proc) fs req))
  /\ map rule (url_map (served_app proc)) = ["/static/<path:filename>"; "/"].
Proof.
  intros Hp Hne Hst.
  assert (Hw : wsgi_app (served_app proc) req fs
               = ([], fs, inr (finalize (served_app proc) req (inl NotFound)))).
  { rewrite wsgi_app_run. unfold dispatch_request.
    by rewrite url_match_unregistered. }
  unfold respond. rewrite Hw. unfold result_of. cbn [snd].
  split; [by rewrite finalize_error_status |]. split; reflexivity.
Qed.

Lemma unregistered_path_is_not_found_witness :
  path (Sample.get "/missing") <> ""
  /\ path_part (path (Sample.get "/missing")) <> "/"
  /\ startswith (path_part (path (Sample.get "/missing"))) "/static/" = false
  /\ status_code (respond (served_app Sample.proc) Sample.site (Sample.get "/missing")) = 404.
Proof.
  assert (Hp : path (Sample.get "/missing") <> "") by done.
  assert (Hne : path_part (path (Sample.get "/missing")) <> "/") by done.
  destruct (unregistered_path_is_not_found Sample.proc Sample.site (Sample.get "/missing")
              Hp Hne eq_refl) as [Hs _].
  repeat split; try assumption; reflexivity.
Defined.

(** *** The two config entries *)

Lemma send_from_directory_agree c1 c2 directory name req fs :
  ctx_agree c1 c2 ->
  send_from_directory c1 directory name req fs
  = send_from_directory c2 directory name req fs.
Proof.
  intros (Hroot & Htypes & _ & Hx & Hage & _).
  unfold send_from_directory, get_send_file_max_age.
  by rewrite Hroot, Htypes, Hx, Hage.
Qed.

Lemma index_agree c1 c2 args req fs :
  ctx_agree c1 c2 -> index c1 args req fs = index c2 args req fs.
Proof. intros H. unfold index. by apply send_from_directory_agree. Qed.

Lemma send_static_file_agree c1 c2 args req fs :
  ctx_agree c1 c2 -> send_static_file c1 args req fs = send_static_file c2 args req fs.
Proof.
  intros H. unfold send_static_file.
  pose proof H as (_ & _ & Hst & _). rewrite Hst.
  destruct (static_folder c2); [| done].
  destruct (assoc "filename" args); [| done].
  by apply send_from_directory_agree.
Qed.

Lemma wsgi_app_agree a1 a2 :
  url_map a1 = url_map a2 ->
  view_functions a1 = [("index", index); ("static", send_static_file)] ->
  view_functions a2 = [("index", index); ("static", send_static_file)] ->
  ctx_agree (ctx a1) (ctx a2) ->
  forall req fs, wsgi_app a1 req fs = wsgi_app a2 req fs.
Proof.
  intros Hmap Hv1 Hv2 Hc req fs. rewrite !wsgi_app_run.
  assert (Hd : dispatch_request a1 req fs = dispatch_request a2 req fs).
  { unfold dispatch_request. rewrite Hmap, Hv1, Hv2.
    destruct (url_match (url_map a2) req) as [e | [r args]]; [done |].
    case_bool_decide; [done |]. cbn [assoc].
    case_bool_decide; [by apply index_agree |].
    case_bool_decide; [by apply send_static_file_agree | done]. }
  rewrite Hd. destruct (dispatch_request a2 req fs) as [[t fs1] r].
  unfold finalize, trap_http_exception.
  destruct Hc as (_ & _ & _ & _ & _ & Htrap). by rewrite Htrap.
Qed.

Lemma serve_forever_agree a1 a2 :
  (forall req fs, wsgi_app a1 req fs = wsgi_app a2 req fs) ->
  forall incoming fs, serve_forever a1 incoming fs = serve_forever a2 incoming fs.
Proof.
  intros Hw incoming. induction incoming as [| req rest IH]; intros fs; [done |].
  cbn [serve_forever]. rewrite !bind_run, Hw.
  destruct (wsgi_app a2 req fs) as [[t fs1] [e | rv]]; [done |].
  rewrite !bind_run. unfold emit. rewrite !bind_run, IH. done.
Qed.

Lemma served_agree proc :
  forall req fs,
    wsgi_app (served_app proc) req fs
    = wsgi_app (config_set (app_without_config proc) "DEBUG" (PyBool true)) req fs.
Proof. apply wsgi_app_agree; [reflexivity .. |]. by repeat split. Qed.

Lemma imported_agree proc :
  forall req fs, wsgi_app (app proc) req fs = wsgi_app (app_without_config proc) req fs.
Proof. apply wsgi_app_agree; [reflexivity .. |]. by repeat split. Qed.

(** C10: lines 12 and 13 store the two entries in the configuration,
    and the file without these two lines performs the same events,
    leaves the same file system and ends in the same way: the same
    exception, the same list of responses, or an application object
    that answers every request as the original does. *)
Theorem config_entries_are_unobservable (proc : Process) (incoming : list Request)
    (fs : filesystem) :
  config (ctx (app proc)) !! "UPLOAD_FOLDER" = Some (PyStr UPLOAD_FOLDER)
  /\ config (ctx (app proc)) !! "PROCESSED_FOLDER" = Some (PyStr PROCESSED_FOLDER)
  /\ config (ctx (app_without_config proc)) !! "UPLOAD_FOLDER" = None
  /\ config (ctx (app_without_config proc)) !! "PROCESSED_FOLDER" = None
  /\ trace_of (main proc incoming fs) = trace_of (main_without_config proc incoming fs)
  /\ fs_of (main proc incoming fs) = fs_of (main_without_config proc incoming fs)
  /\ outcome_equiv (result_of (main proc incoming fs))
       (result_of (main_without_config proc incoming fs)).
Proof.
  do 4 (split; [reflexivity |]).
  unfold main, main_without_config, main_from.
  destruct (provision proc fs) as [[t1 fs1] [e | u]]; [done |].
  case_bool_decide.
  - unfold run. rewrite !bind_run. unfold emit.
    change (config_set (route (app0 proc) "/" "index" index) "DEBUG" (PyBool true))
      with (served_app proc).
    change (route (init (__name__ proc) (module_dir proc) (mime_types proc))
              "/" "index" index)
      with (app_without_config proc).
    rewrite (serve_forever_agree _ _ (served_agree proc)).
    destruct (serve_forever _ incoming fs1) as [[t2 fs2] [e | rvs]]; done.
  - split; [done |]. split; [done |]. exact (imported_agree proc).
Qed.

(** *** The scenario of the specification *)

(** Starting in an empty application directory, the four directories
    are created; once [templates/index.html] is deployed, [GET /] is
    answered with its content, also when the request carries a query
    string, other headers and a body. *)
Example hello_scenario :
  result_of (provision Sample.proc Sample.fresh) = inr tt
  /\ is_dir Sample.provisioned ["srv"; "app"; "uploads"] = true
  /\ is_dir Sample.provisioned ["srv"; "app"; "processed_videos"] = true
  /\ is_dir Sample.provisioned ["srv"; "app"; "templates"] = true
  /\ is_dir Sample.provisioned ["srv"; "app"; "static"] = true
  /\ status_code (respond (served_app Sample.proc) Sample.site (Sample.get "/")) = 200
  /\ body (respond (served_app Sample.proc) Sample.site (Sample.get "/")) = Sample.hello
  /\ body (respond (served_app Sample.proc) Sample.site Sample.get_noisy) = Sample.hello.
Proof. by vm_compute. Qed.

Example blocked_scenario :
  result_of (main Sample.proc [Sample.get "/"] Sample.blocked) = Crashed FileExistsError
  /\ trace_of (main Sample.proc [Sample.get "/"] Sample.blocked)
     = [SysMkdir ["srv"; "app"; "uploads"]; SysStat ["srv"; "app"; "uploads"]].
Proof. by vm_compute. Qed.

Example traversal_is_rejected :
  status_code (respond (served_app Sample.proc) Sample.site
                 (Sample.get "/static/../templates/index.html")) = 404.
Proof. by vm_compute. Qed.

(** A method written in lower case is routed like its upper-case
    form: [get /] is answered with the page. *)
Example lower_case_method_scenario :
  status_code (respond (served_app Sample.proc) Sample.site Sample.get_lower_case) = 200
  /\ body (respond (served_app Sample.proc) Sample.site Sample.get_lower_case)
     = Sample.hello.
Proof. by vm_compute. Qed.

(** The type follows the extension of the file that is sent, and the
    [mime.types] files of the system take precedence over the built-in
    table. *)
Example type_by_extension_scenario :
  content_type (respond (served_app Sample.proc) Sample.site (Sample.get "/"))
  = Some "text/html; charset=utf-8"
  /\ content_type (respond (served_app Sample.proc) Sample.site
                     (Sample.get "/static/app.css"))
     = Some "text/css; charset=utf-8"
  /\ content_type (respond (served_app Sample.xhtml) Sample.site (Sample.get "/"))
     = Some "application/xhtml+xml; charset=utf-8".
Proof. by vm_compute. Qed.

End Proofs.

(** ** Further properties of the code *)

Module More.
Import Os Posix Mimetypes Werkzeug Routing Flask App Spec Proofs.

#[local] Arguments Ascii.eqb : simpl never.

(** *** Provisioning (lines 16 to 19) *)

Lemma makedirs_all_success cwd names : forall fs t fs',
  makedirs_all cwd names fs = (t, fs', inr tt) ->
  forall d, d ∈ names ->
    is_dir fs (cwd ++ [d]) = true
    \/ (fs !! (cwd ++ [d]) = None /\ fs !! cwd = Some (Dir true)).
Proof.
  induction names as [| name rest IH]; intros fs t fs' Hrun d Hd.
  { by apply elem_of_nil in Hd. }
  simpl in Hrun. rewrite bind_run in Hrun.
  destruct (makedirs cwd name true fs) as [[t1 fs1] [e | []]] eqn:E1; [done |].
  destruct (makedirs_all cwd rest fs1) as [[t2 fs2] r2] eqn:E2.
  injection Hrun as <- <- ->.
  destruct (makedirs_cases cwd name fs)
    as [[Hdir Heq] | [[Hnone [Hcwd Heq]] | [_ (t' & e' & Heq & _)]]];
    rewrite Heq in E1; [| | discriminate E1]; injection E1 as <- <-.
  - apply elem_of_cons in Hd as [-> | Hd]; [by left |]. by eapply IH.
  - apply elem_of_cons in Hd as [-> | Hd]; [by right |].
    destruct (IH _ _ _ E2 d Hd) as [Hdir | [Hn Hc]].
    + destruct (decide (name = d)) as [-> | Hne]; [by right |].
      left. unfold is_dir in *. rewrite lookup_insert_ne in Hdir; [done |].
      intros Heq'. by apply app_inj_tail in Heq' as [_ ?].
    + right. destruct (decide (name = d)) as [-> | Hne].
      { by rewrite lookup_insert_eq in Hn. }
      rewrite lookup_insert_ne in Hn
        by (intros Heq'; by apply app_inj_tail in Heq' as [_ ?]).
      rewrite lookup_insert_ne in Hc by apply child_neq_parent. done.
Qed.

(** X1: startup provisioning completes without error exactly on the
    file systems where each of the four names is already a directory or
    is free in a writable working directory. *)
Theorem provision_succeeds_iff (proc : Process) (fs : filesystem) :
  result_of (provision proc fs) = inr tt <-> provisionable proc fs.
Proof.
  rewrite provision_loop. split.
  - intros Hok d Hd.
    destruct (makedirs_all (cwd proc) directories fs) as [[t fs'] r] eqn:E.
    unfold result_of in Hok. simpl in Hok. subst r.
    by eapply makedirs_all_success.
  - intros Hp. destruct (makedirs_all_ok (cwd proc) directories fs Hp) as (t & fs' & ->).
    reflexivity.
Qed.

Lemma makedirs_all_adds cwd names : forall (fs : filesystem) t fs' r,
  makedirs_all cwd names fs = (t, fs', r) ->
  forall p, fs !! p = None -> is_Some (fs' !! p) ->
    fs' !! p = Some (Dir true) /\ exists d, d ∈ names /\ p = cwd ++ [d].
Proof.
  induction names as [| name rest IH]; intros fs t fs' r Hrun p Hnone Hsome.
  { injection Hrun as <- <- <-. rewrite Hnone in Hsome. by destruct Hsome. }
  simpl in Hrun. rewrite bind_run in Hrun.
  destruct (makedirs cwd name true fs) as [[t1 fs1] r1] eqn:E1.
  assert (Hstep : fs1 = fs \/ (fs1 = <[cwd ++ [name] := Dir true]> fs
                               /\ exists u, r1 = inr u)).
  { destruct (makedirs_cases cwd name fs)
      as [[_ Heq] | [[_ [_ Heq]] | [_ (t' & e' & Heq & _)]]];
      rewrite Heq in E1; injection E1 as <- <- <-; eauto. }
  destruct r1 as [e | []].
  - injection Hrun as <- <- <-.
    destruct Hstep as [-> | [_ [u Hu]]]; [| done].
    rewrite Hnone in Hsome. by destruct Hsome.
  - destruct (makedirs_all cwd rest fs1) as [[t2 fs2] r2] eqn:E2.
    injection Hrun as <- <- <-.
    destruct (makedirs_all_step _ _ _ _ _ _ E2) as (Hext & _ & _).
    destruct (fs1 !! p) as [n |] eqn:E1p.
    + destruct Hstep as [-> | [-> _]]; [congruence |].
      destruct (decide (cwd ++ [name] = p)) as [<- | Hne].
      * rewrite lookup_insert_eq in E1p. injection E1p as <-.
        split; [| exists name; split; [by left | done]].
        rewrite (Hext (cwd ++ [name])); by rewrite lookup_insert_eq.
      * rewrite lookup_insert_ne in E1p by done. congruence.
    + destruct (IH _ _ _ _ E2 p E1p Hsome) as [Hdir (d & Hd & ->)].
      split; [done |]. exists d. split; [by right | done].
Qed.


(** X2: whether it succeeds or fails, provisioning leaves every
    existing entry as it was, and every entry it adds is a directory
    named after one of the four folders, directly under the working
    directory; in particular it never creates, changes or removes a
    regular file. *)
Theorem provision_only_adds_directories (proc : Process) (fs : filesystem) :
  extends fs (fs_of (provision proc fs))
  /\ (forall p, fs !! p = None -> is_Some (fs_of (provision proc fs) !! p) ->
        fs_of (provision proc fs) !! p = Some (Dir true)
        /\ exists d, d ∈ directories /\ p = cwd proc ++ [d])
  /\ (forall p, is_file (fs_of (provision proc fs)) p = is_file fs p).
Proof.
  rewrite provision_loop.
  destruct (makedirs_all (cwd proc) directories fs) as [[t fs'] r] eqn:E.
  destruct (makedirs_all_step _ _ _ _ _ _ E) as (Hext & _ & _).
  pose proof (makedirs_all_adds _ _ _ _ _ _ E) as Hadd.
  unfold fs_of. simpl. split; [done |]. split; [done |].
  intros p. unfold is_file.
  destruct (fs !! p) as [n |] eqn:Ep.
  - rewrite (Hext p); by rewrite Ep.
  - destruct (fs' !! p) as [n' |] eqn:Ep'; [| done].
    destruct (Hadd p Ep) as [Hd _]; [by rewrite Ep' |].
    rewrite Ep' in Hd. by injection Hd as ->.
Qed.

Lemma makedirs_all_failure cwd names : forall fs t fs' e,
  makedirs_all cwd names fs = (t, fs', inl e) ->
  exists before d after t1 t2,
    names = before ++ d :: after
    /\ makedirs_all cwd before fs = (t1, fs', inr tt)
    /\ makedirs cwd d true fs' = (t2, fs', inl e)
    /\ t = t1 ++ t2.
Proof.
  induction names as [| name rest IH]; intros fs t fs' e Hrun; [done |].
  simpl in Hrun. rewrite bind_run in Hrun.
  destruct (makedirs cwd name true fs) as [[t1 fs1] [e1 | []]] eqn:E1.
  - injection Hrun as <- <- <-.
    destruct (makedirs_step _ _ _ _ _ _ E1) as (_ & _ & _ & Herr).
    destruct (Herr e1 eq_refl) as [-> _].
    exists [], name, rest, [], t1. by repeat split.
  - destruct (makedirs_all cwd rest fs1) as [[t2 fs2] r2] eqn:E2.
    injection Hrun as <- <- ->.
    destruct (IH _ _ _ _ E2) as (before & d & after & u1 & u2 & -> & Hb & Hd & ->).
    exists (name :: before), d, after, (t1 ++ u1), u2.
    split; [done |]. split; [| split; [done | by rewrite app_assoc]].
    simpl. by rewrite bind_run, E1, Hb.
Qed.

(** X3: a failing provisioning step fails at the first of the four
    names that cannot be made a directory: the run is the successful
    creation of the names before it followed by the one failing call, so
    the directories before it exist and stay, that name is not a
    directory, and nothing is attempted for the names after it. *)
Theorem provision_stops_at_first_failure (proc : Process) (fs : filesystem)
    (e : exception) :
  result_of (provision proc fs) = inl e ->
  exists before d after t1 t2,
    directories = before ++ d :: after
    /\ makedirs_all (cwd proc) before fs = (t1, fs_of (provision proc fs), inr tt)
    /\ makedirs (cwd proc) d true (fs_of (provision proc fs))
       = (t2, fs_of (provision proc fs), inl e)
    /\ trace_of (provision proc fs) = t1 ++ t2
    /\ (forall b, b ∈ before ->
          is_dir (fs_of (provision proc fs)) (cwd proc ++ [b]) = true)
    /\ is_dir (fs_of (provision proc fs)) (cwd proc ++ [d]) = false.
Proof.
  rewrite provision_loop. intros He.
  destruct (makedirs_all (cwd proc) directories fs) as [[t fs'] r] eqn:E.
  unfold result_of, fs_of, trace_of in *. cbn [fst snd] in *. subst r.
  destruct (makedirs_all_failure _ _ _ _ _ _ E)
    as (before & d & after & t1 & t2 & Hsplit & Hb & Hd & Ht).
  exists before, d, after, t1, t2. do 4 (split; [done |]).
  destruct (makedirs_all_step _ _ _ _ _ _ Hb) as (_ & _ & Hdirs).
  split; [by apply (Hdirs tt) |].
  destruct (makedirs_step _ _ _ _ _ _ Hd) as (_ & _ & _ & Herr).
  by destruct (Herr e eq_refl).
Qed.

Lemma provision_stops_at_first_failure_witness :
  result_of (provision Sample.proc Sample.blocked_second) = inl FileExistsError
  /\ exists before d after t1 t2,
       directories = before ++ d :: after
       /\ makedirs_all (cwd Sample.proc) before Sample.blocked_second
          = (t1, fs_of (provision Sample.proc Sample.blocked_second), inr tt)
       /\ makedirs (cwd Sample.proc) d true
            (fs_of (provision Sample.proc Sample.blocked_second))
          = (t2, fs_of (provision Sample.proc Sample.blocked_second), inl FileExistsError)
       /\ trace_of (provision Sample.proc Sample.blocked_second) = t1 ++ t2
       /\ (forall b, b ∈ before ->
             is_dir (fs_of (provision Sample.proc Sample.blocked_second))
               (cwd Sample.proc ++ [b]) = true)
       /\ is_dir (fs_of (provision Sample.proc Sample.blocked_second))
            (cwd Sample.proc ++ [d]) = false.
Proof.
  assert (He : result_of (provision Sample.proc Sample.blocked_second)
               = inl FileExistsError) by (by vm_compute).
  split; [exact He |].
  exact (provision_stops_at_first_failure Sample.proc Sample.blocked_second
           FileExistsError He).
Defined.

(** *** Provisioning and the page *)




(** *** The route of line 21: methods *)

Lemma match_rule_index_hit m :
  match_rule {| rule := "/"; endpoint := "index"; methods := m |} "/" = Hit [].
Proof. reflexivity. Qed.

Lemma match_rules_root proc m have :
  match_rules (url_map (served_app proc)) m "/" have =
  if bool_decide (m ∈ ["GET"; "HEAD"; "OPTIONS"])
  then Found {| rule := "/"; endpoint := "index"; methods := ["GET"; "HEAD"; "OPTIONS"] |} []
  else NotMatched (list_union have ["GET"; "HEAD"; "OPTIONS"]).
Proof.
  rewrite served_url_map. unfold match_rules.
  rewrite match_rule_static_miss by reflexivity.
  rewrite match_rule_index_hit. reflexivity.
Qed.






(** X7: a request on [/] whose method, put in upper case as the router
    does, is none of [GET], [HEAD] and [OPTIONS] is answered with
    status 405 and an [Allow] header that lists these three methods;
    the view is not called and no file-system call is made. *)
Theorem other_methods_are_not_allowed (proc : Process) (fs : filesystem)
    (req : Request) :
  path req = "/" -> upper (method req) ∉ ["GET"; "HEAD"; "OPTIONS"] ->
  status_code (respond (served_app proc) fs req) = 405
  /\ Allow ["GET"; "HEAD"; "OPTIONS"] ∈ resp_headers (respond (served_app proc) fs req)
  /\ wsgi_app (served_app proc) req fs = ([], fs, inr (respond (served_app proc) fs req)).
Proof.
  intros Hp Hm.
  assert (Hu : url_match (url_map (served_app proc)) req
               = inl (MethodNotAllowed ["GET"; "HEAD"; "OPTIONS"])).
  { unfold url_match. rewrite Hp. change (path_part "/") with "/".
    change (merge_slashes "/") with "/". cbv zeta.
    rewrite match_rules_root, bool_decide_false by done.
    rewrite match_rules_root, bool_decide_false by done. reflexivity. }
  assert (Hw : wsgi_app (served_app proc) req fs
               = ([], fs, inr (finalize (served_app proc) req
                                 (inl (MethodNotAllowed ["GET"; "HEAD"; "OPTIONS"]))))).
  { rewrite wsgi_app_run. unfold dispatch_request. by rewrite Hu. }
  unfold respond. rewrite Hw. unfold result_of. cbn [snd].
  split; [by rewrite finalize_error_status |]. split; [| done].
  unfold finalize. rewrite served_trap. simpl. set_solver.
Qed.

Lemma other_methods_are_not_allowed_witness :
  path Sample.post_root = "/"
  /\ (upper (method Sample.post_root) ∉ ["GET"; "HEAD"; "OPTIONS"])
  /\ status_code (respond (served_app Sample.proc) Sample.site Sample.post_root) = 405.
Proof.
  assert (Hm : upper (method Sample.post_root) ∉ ["GET"; "HEAD"; "OPTIONS"])
    by (apply not_elem_of_cons; split; [discriminate |];
        apply not_elem_of_cons; split; [discriminate |];
        apply not_elem_of_cons; split; [discriminate | apply not_elem_of_nil]).
  destruct (other_methods_are_not_allowed Sample.proc Sample.site Sample.post_root
              eq_refl Hm) as (Hs & _).
  by repeat split.
Defined.



(** *** The view of lines 22 and 23: ranges and validators *)

Lemma finalize_status proc req rv :
  status_code (finalize (served_app proc) req (inr rv)) = status_code rv.
Proof. reflexivity. Qed.

Lemma respond_present proc req fs content mtime :
  method req = "GET" -> path req = "/" ->
  fs !! index_path proc = Some (File content mtime) ->
  respond (served_app proc) fs req
  = finalize (served_app proc) req
      (make_conditional req (file_etag (index_path proc) content mtime) mtime
         (Z.of_nat (length content))
         (file_response (mime_types proc) (index_path proc) content mtime None)).
Proof.
  intros Hm Hp Hf. unfold respond. rewrite (respond_index proc req fs Hm Hp).
  rewrite (index_present (ctx (served_app proc)) [] req fs content mtime
             (served_x_sendfile proc) Hf).
  reflexivity.
Qed.

Lemma make_conditional_get req etag last_modified n rv :
  method req = "GET" ->
  make_conditional req etag last_modified n rv =
  match process_range_request req etag last_modified n with
  | inl e => inl e
  | inr (Some (start, stop)) =>
      inr {| status_code := 206;
             resp_headers :=
               set_content_length (stop - start) (resp_headers rv ++ [AcceptRanges "bytes"])
               ++ [ContentRange "bytes" (Some start) (Some (stop - 1)) n];
             body := slice start stop (body rv) |}
  | inr None =>
      if negb (is_resource_modified req etag last_modified true) then
        inr {| status_code := if etags_bool (if_match req) then 412 else 304;
               resp_headers := resp_headers rv ++ [AcceptRanges "bytes"];
               body := body rv |}
      else inr (with_accept_ranges rv)
  end.
Proof. intros Hm. unfold make_conditional. by rewrite Hm. Qed.

Lemma range_for_length_bounds r n start stop :
  range_for_length r n = Some (start, stop) -> 0 <= start < stop /\ stop <= n.
Proof.
  unfold range_for_length, is_byte_range_valid.
  destruct (negb (bool_decide (units r = "bytes"))); [done |].
  destruct (ranges r) as [| [a b] [| ? ?]]; try done.
  destruct b as [e |].
  - destruct (e <=? a) eqn:E1; [done |].
    destruct ((0 <=? a) && (a <? n)) eqn:E2; [| done].
    intros [= <- <-]. lia.
  - destruct (n <=? (if a <? 0 then a + n else a)) eqn:E1; [done |].
    destruct ((0 <=? (if a <? 0 then a + n else a))
              && ((if a <? 0 then a + n else a) <? n)) eqn:E2; [| done].
    intros [= <- <-]. lia.
Qed.

Lemma process_range_request_bounds req etag last_modified n start stop :
  process_range_request req etag last_modified n = inr (Some (start, stop)) ->
  0 <= start < stop /\ stop <= n.
Proof.
  unfold process_range_request.
  destruct (range req) as [parsed |]; [| done].
  destruct ((n =? 0) || negb (is_range_request_processable req etag last_modified));
    [done |].
  destruct parsed as [r |]; [| done].
  destruct (range_for_length r n) as [[a b] |] eqn:E; [| done].
  intros [= <- <-]. by eapply range_for_length_bounds.
Qed.

Lemma length_slice {A} (l : list A) start stop :
  0 <= start < stop -> stop <= Z.of_nat (length l) ->
  Z.of_nat (length (slice start stop l)) = stop - start.
Proof.
  intros H1 H2. unfold slice. rewrite length_take, length_drop. lia.
Qed.

(** X9: whenever a [GET /] request on an existing [templates/index.html]
    is answered with status 206, the body is the slice of the file
    between two offsets [start < stop] that lie within the file, its
    length is [stop - start], and the [Content-Length] and
    [Content-Range] headers state exactly this slice and the size of the
    whole file. *)
Theorem partial_content_is_a_slice (proc : Process) (fs : filesystem) (req : Request)
    (content : list Byte.byte) (mtime : Z) :
  method req = "GET" -> path req = "/" ->
  fs !! index_path proc = Some (File content mtime) ->
  status_code (respond (served_app proc) fs req) = 206 ->
  exists start stop,
    0 <= start < stop /\ stop <= Z.of_nat (length content)
    /\ body (respond (served_app proc) fs req) = slice start stop content
    /\ Z.of_nat (length (body (respond (served_app proc) fs req))) = stop - start
    /\ ContentLength (stop - start) ∈ resp_headers (respond (served_app proc) fs req)
    /\ ContentRange "bytes" (Some start) (Some (stop - 1)) (Z.of_nat (length content))
         ∈ resp_headers (respond (served_app proc) fs req).
Proof.
  intros Hm Hp Hf. rewrite (respond_present proc req fs content mtime Hm Hp Hf).
  rewrite make_conditional_get by done.
  destruct (process_range_request req _ mtime _) as [e | [[start stop] |]] eqn:E.
  - rewrite finalize_error_status. by destruct e.
  - intros _. apply process_range_request_bounds in E as [Hb1 Hb2].
    exists start, stop. split; [done |]. split; [done |].
    unfold finalize. rewrite get_wsgi_response_plain by (simpl; auto; lia).
    cbn [body resp_headers file_response].
    split; [done |]. split; [by apply length_slice |].
    split; [apply elem_of_app; left; apply list_elem_of_here |].
    apply elem_of_app. right. apply list_elem_of_here.
  - destruct (negb (is_resource_modified req _ mtime true)); rewrite finalize_status.
    + simpl. by destruct (etags_bool (if_match req)).
    + done.
Qed.

Lemma partial_content_is_a_slice_witness :
  Sample.site !! index_path Sample.proc = Some (File Sample.hello 1700000000)
  /\ status_code (respond (served_app Sample.proc) Sample.site Sample.get_first_bytes) = 206
  /\ exists start stop,
       0 <= start < stop /\ stop <= Z.of_nat (length Sample.hello)
       /\ body (respond (served_app Sample.proc) Sample.site Sample.get_first_bytes)
          = slice start stop Sample.hello.
Proof.
  assert (Hf : Sample.site !! index_path Sample.proc = Some (File Sample.hello 1700000000))
    by (by vm_compute).
  assert (Hs : status_code (respond (served_app Sample.proc) Sample.site
                              Sample.get_first_bytes) = 206) by (by vm_compute).
  destruct (partial_content_is_a_slice Sample.proc Sample.site Sample.get_first_bytes
              Sample.hello 1700000000 eq_refl eq_refl Hf Hs)
    as (start & stop & H1 & H2 & H3 & _).
  split; [exact Hf |]. split; [exact Hs |]. by exists start, stop.
Defined.








(** *** The static route that [Flask(__name__)] registers (line 5) *)

Lemma split_nonempty s : split s <> [].
Proof.
  destruct s as [| a s]; [done |]. cbn [split].
  destruct (is_slash a); [done |]. by destruct (split s).
Qed.

Lemma split_no_slash c : no_slash c = true -> split c = [c].
Proof.
  induction c as [| a c IH]; [done |]. cbn [no_slash split].
  intros [Ha Hc]%andb_true_iff. apply negb_true_iff in Ha.
  by rewrite Ha, (IH Hc).
Qed.

Lemma split_slash_free s : Forall (fun c => no_slash c = true) (split s).
Proof.
  induction s as [| a s IH]; [by repeat constructor |]. cbn [split].
  destruct (is_slash a) eqn:Ha; [by constructor |].
  destruct (split s) as [| c cs]; [by repeat constructor; cbn; rewrite Ha |].
  inversion IH as [| ? ? Hc Hcs]; subst.
  constructor; [| done]. cbn [no_slash]. by rewrite Ha, Hc.
Qed.

Lemma split_app_slash a b : split (a +:+ "/" +:+ b) = split a ++ split b.
Proof.
  induction a as [| c a IH]; [done |].
  rewrite append_cons. cbn [split]. rewrite IH.
  destruct (is_slash c); [done |].
  pose proof (split_nonempty a). by destruct (split a).
Qed.

Lemma join_cons c c2 cs : join (c :: c2 :: cs) = c +:+ "/" +:+ join (c2 :: cs).
Proof. reflexivity. Qed.

Lemma split_join cs :
  cs <> [] -> Forall (fun c => no_slash c = true) cs -> split (join cs) = cs.
Proof.
  induction cs as [| c cs IH]; [done |]. intros _ Hall.
  inversion Hall as [| ? ? Hc Hcs]; subst.
  destruct cs as [| c2 cs]; [by apply split_no_slash |].
  rewrite join_cons, split_app_slash, (split_no_slash c Hc), IH by done. done.
Qed.

Lemma normpath_step_shape comps c :
  no_slash c = true -> normal_shape comps -> normal_shape (normpath_step 0 comps c).
Proof.
  intros Hc (k & rest & -> & Hrest). unfold normpath_step.
  destruct (decide (c = "")) as [-> | Hne1]; [by exists k, rest |].
  destruct (decide (c = ".")) as [-> | Hne2]; [by exists k, rest |].
  rewrite !bool_decide_false by done. cbn [orb].
  destruct (decide (c = "..")) as [-> | Hne3].
  - rewrite (bool_decide_true (".." = "..")) by done. cbn [negb orb].
    rewrite (bool_decide_true (0%nat = 0%nat)) by done. cbn [andb].
    destruct rest as [| r rest _] using rev_ind.
    + rewrite app_nil_r.
      assert (Hcond : bool_decide (replicate k ".." = [])
                      || bool_decide (last (replicate k "..") = Some "..") = true).
      { destruct k as [| k]; [done |].
        rewrite replicate_S_end, last_snoc.
        rewrite (bool_decide_true (Some ".." = Some "..")) by done.
        by rewrite orb_true_r. }
      rewrite Hcond. exists (S k), []. split; [| done].
      by rewrite replicate_S_end, app_nil_r.
    + apply Forall_app in Hrest as [Hrest Hr].
      inversion Hr as [| ? ? (_ & _ & Hr3 & _) _]; subst.
      rewrite app_assoc, last_snoc.
      rewrite bool_decide_false by (by destruct (replicate k ".." ++ rest)).
      rewrite bool_decide_false by congruence. cbn [orb].
      rewrite removelast_last. by exists k, rest.
  - rewrite (bool_decide_false (c = "..")) by done. cbn [negb orb].
    exists k, (rest ++ [c]). split; [by rewrite app_assoc |].
    apply Forall_app. split; [done |]. by repeat constructor.
Qed.

Lemma normpath_fold_shape cs : forall acc,
  Forall (fun c => no_slash c = true) cs -> normal_shape acc ->
  normal_shape (fold_left (normpath_step 0) cs acc).
Proof.
  induction cs as [| c cs IH]; intros acc Hall Hacc; [done |].
  inversion Hall; subst. cbn [fold_left]. apply IH; [done |].
  by apply normpath_step_shape.
Qed.

Lemma normpath_absolute f : startswith f "/" = true -> startswith (normpath f) "/" = true.
Proof.
  intros Hs. unfold normpath.
  rewrite bool_decide_false by (intros ->; done). rewrite Hs.
  destruct (startswith f "//" && negb (startswith f "///")).
  - change (String.concat "" (replicate 2 "/")) with "//".
    rewrite !append_cons, append_nil. by rewrite bool_decide_false.
  - change (String.concat "" (replicate 1 "/")) with "/".
    rewrite !append_cons, append_nil. by rewrite bool_decide_false.
Qed.

Lemma normpath_relative f :
  f <> "" -> startswith f "/" = false ->
  normpath f =
    if bool_decide (join (fold_left (normpath_step 0) (split f) []) = "") then "."
    else join (fold_left (normpath_step 0) (split f) []).
Proof.
  intros Hne Hs. unfold normpath. rewrite bool_decide_false by done. by rewrite Hs.
Qed.

(** A normalised relative path that passes the three checks of
    [safe_join] has no [..] component left. *)
Lemma checked_path_has_no_dotdot comps :
  normal_shape comps ->
  (if bool_decide (join comps = "") then "." else join comps) <> ".." ->
  startswith (if bool_decide (join comps = "") then "." else join comps) "../" = false ->
  ".." ∉ split (if bool_decide (join comps = "") then "." else join comps).
Proof.
  intros (k & rest & -> & Hrest) Hne Hst.
  case_bool_decide as Hj.
  { change (split ".") with ["."]. intros Hin.
    by apply list_elem_of_singleton in Hin. }
  destruct k as [| k].
  - change (replicate 0 ".." ++ rest) with rest in *.
    assert (Hfree : Forall (fun c => no_slash c = true) rest).
    { eapply Forall_impl; [exact Hrest |]. by intros c (_ & _ & _ & ?). }
    rewrite split_join; [| by intros -> | done].
    intros Hin. rewrite Forall_forall in Hrest.
    by destruct (Hrest _ Hin) as (_ & _ & ? & _).
  - exfalso. change (replicate (S k) ".." ++ rest)
      with (".." :: (replicate k ".." ++ rest)) in *.
    destruct (replicate k ".." ++ rest) as [| c2 cs]; [done |].
    rewrite join_cons in Hst. by rewrite !append_cons, append_nil in Hst.
Qed.

Lemma safe_join_static f s :
  safe_join "static" f = Some s ->
  exists f', s = "static" +:+ "/" +:+ f' /\ ".." ∉ split f'.
Proof.
  unfold safe_join. rewrite (bool_decide_false ("static" = "")) by done.
  destruct (decide (f = "")) as [-> | Hne].
  { intros [= <-]. exists "". split; [done |].
    change (split "") with [""]. intros Hin.
    by apply list_elem_of_singleton in Hin. }
  rewrite (bool_decide_false (f = "")) by done.
  destruct (startswith (normpath f) "/") eqn:Hs; [done |].
  destruct (bool_decide (normpath f = "..")) eqn:Hd; [done |].
  destruct (startswith (normpath f) "../") eqn:Hu; [done |].
  cbn [orb]. unfold joinpath. rewrite Hs.
  change (bool_decide ("static" = "") || startswith (String.rev "static") "/")
    with false.
  intros [= <-]. exists (normpath f). split; [done |].
  apply bool_decide_eq_false in Hd.
  destruct (startswith f "/") eqn:Hf.
  { apply normpath_absolute in Hf. congruence. }
  rewrite (normpath_relative f Hne Hf) in *.
  apply checked_path_has_no_dotdot; [| done | done].
  apply normpath_fold_shape; [apply split_slash_free |].
  by exists 0%nat, [].
Qed.

Lemma resolve_fold_prefix comps : forall base,
  ".." ∉ comps -> base `prefix_of` fold_left resolve_step comps base.
Proof.
  induction comps as [| c comps IH]; intros base Hno; [done |].
  cbn [fold_left].
  apply not_elem_of_cons in Hno as [Hc Hno].
  etrans; [| apply IH; done].
  unfold resolve_step.
  destruct (bool_decide (c = "") || bool_decide (c = ".")); [done |].
  rewrite bool_decide_false by done. by apply prefix_app_r.
Qed.

Lemma resolve_static root f' :
  ".." ∉ split f' ->
  (root ++ ["static"]) `prefix_of` resolve root ("static" +:+ "/" +:+ f').
Proof.
  intros Hno. unfold resolve.
  change (startswith ("static" +:+ "/" +:+ f') "/") with false.
  rewrite split_app_slash.
  change (split "static" ++ split f') with ("static" :: split f').
  cbn [fold_left]. change (resolve_step root "static") with (root ++ ["static"]).
  by apply resolve_fold_prefix.
Qed.

Lemma send_static_file_within proc args req :
  confined (within proc) (send_static_file (ctx (served_app proc)) args req).
Proof.
  unfold send_static_file.
  change (static_folder (ctx (served_app proc))) with (Some "static").
  destruct (assoc "filename" args) as [filename |]; [| apply confined_raise].
  unfold send_from_directory. apply send_from_directory_confined.
  intros s Hs. change (root_path (ctx (served_app proc))) with (module_dir proc).
  destruct (safe_join_static _ _ Hs) as (f' & -> & Hno).
  pose proof (resolve_static (module_dir proc) f' Hno) as Hpre.
  split; eexists; (split; [eauto | by right]).
Qed.

(** X13: whatever the request (path, method, headers, body), handling
    it stats or opens only [templates/index.html] or paths below the
    [static] folder under the application root: no [..], absolute or
    doubled-slash path in the URL makes the server touch anything else. *)
Theorem requests_stay_within_templates_and_static (proc : Process) (req : Request)
    (fs : filesystem) :
  Forall (within proc) (trace_of (wsgi_app (served_app proc) req fs)).
Proof.
  apply wsgi_app_confined.
  intros name view Hin args rq.
  change (view_functions (served_app proc))
    with [("index", index); ("static", send_static_file)] in Hin.
  apply elem_of_cons in Hin as [[= -> ->] | Hin].
  { eapply confined_weaken; [| apply index_confined].
    intros e He. destruct He as [-> | ->]; eexists; (split; [eauto | by left]). }
  apply elem_of_cons in Hin as [[= -> ->] | Hin].
  { apply send_static_file_within. }
  by apply elem_of_nil in Hin.
Qed.















End More.
